(** * glutton: protocol registry and first-bytes classifier

    A shallow embedding of [protocols/protocols.go]: the two handler
    registries built by [MapUDPProtocolHandlers] and
    [MapTCPProtocolHandlers], and the closure stored under the key
    ["tcp"], which peeks at the first four bytes of a connection and
    hands it to the HTTP, RDP or raw TCP handler.

    The handlers of package [tcp] and [udp], the logger and the
    connection are collaborators that live outside the file; calls to
    them are recorded in a trace and answered by an environment. *)

From Stdlib Require Import ZArith Strings.Byte Ascii String List Lia.
From stdpp Require Import gmap strings list fin_maps.

(** ** The pieces of the Go runtime that the file relies on *)

(** Go strings are byte sequences: a [string] here is a sequence of 8-bit
    characters, a [[]byte] is a [list byte], and the conversion
    [string(b)] is [string_of_list_byte]. *)

#[global] Instance byte_eq_decision : EqDecision byte := Byte.byte_eq_dec.

Module utf8.
Local Open Scope Z_scope.

Definition RuneError : Z := 0xFFFD.
Definition RuneSelf : Z := 0x80.
Definition MaxRune : Z := 0x10FFFF.
Definition surrogateMin : Z := 0xD800.
Definition surrogateMax : Z := 0xDFFF.

(** What the leading byte of a sequence announces: one ASCII byte, an
    invalid byte, or a sequence of 2, 3 or 4 bytes together with the
    range accepted for its second byte (Go's tables [first] and
    [acceptRanges]). *)
Inductive lead : Type :=
| LeadASCII
| LeadInvalid
| Lead2 (lo hi : Z)
| Lead3 (lo hi : Z)
| Lead4 (lo hi : Z).

Definition first (b : Z) : lead :=
  if b <? 0x80 then LeadASCII
  else if b <? 0xC2 then LeadInvalid
  else if b <? 0xE0 then Lead2 0x80 0xBF
  else if b =? 0xE0 then Lead3 0xA0 0xBF
  else if b =? 0xED then Lead3 0x80 0x9F
  else if b <? 0xF0 then Lead3 0x80 0xBF
  else if b =? 0xF0 then Lead4 0x90 0xBF
  else if b <? 0xF4 then Lead4 0x80 0xBF
  else if b =? 0xF4 then Lead4 0x80 0x8F
  else LeadInvalid.

Definition within (lo hi b : Z) : bool := (lo <=? b) && (b <=? hi).
Definition continuation (b : Z) : bool := within 0x80 0xBF b.

Definition rune2 (b0 b1 : Z) : Z :=
  Z.lor (Z.shiftl (Z.land b0 0x1F) 6) (Z.land b1 0x3F).
Definition rune3 (b0 b1 b2 : Z) : Z :=
  Z.lor (Z.lor (Z.shiftl (Z.land b0 0x0F) 12) (Z.shiftl (Z.land b1 0x3F) 6))
        (Z.land b2 0x3F).
Definition rune4 (b0 b1 b2 b3 : Z) : Z :=
  Z.lor (Z.lor (Z.lor (Z.shiftl (Z.land b0 0x07) 18) (Z.shiftl (Z.land b1 0x3F) 12))
               (Z.shiftl (Z.land b2 0x3F) 6))
        (Z.land b3 0x3F).

(** The runes that [for _, c := range s] yields: every step is
    [DecodeRuneInString] on what is left; a byte that starts no
    well-formed sequence yields [RuneError] and is skipped alone. *)
Fixpoint runes (s : list Z) : list Z :=
  match s with
  | [] => []
  | b0 :: t0 =>
    match first b0 with
    | LeadASCII => b0 :: runes t0
    | LeadInvalid => RuneError :: runes t0
    | Lead2 lo hi =>
      match t0 with
      | b1 :: t1 =>
        if within lo hi b1 then rune2 b0 b1 :: runes t1
        else RuneError :: runes t0
      | _ => RuneError :: runes t0
      end
    | Lead3 lo hi =>
      match t0 with
      | b1 :: b2 :: t2 =>
        if within lo hi b1 && continuation b2 then rune3 b0 b1 b2 :: runes t2
        else RuneError :: runes t0
      | _ => RuneError :: runes t0
      end
    | Lead4 lo hi =>
      match t0 with
      | b1 :: b2 :: b3 :: t3 =>
        if within lo hi b1 && continuation b2 && continuation b3
        then rune4 b0 b1 b2 b3 :: runes t3
        else RuneError :: runes t0
      | _ => RuneError :: runes t0
      end
    end
  end.

Definition encode3 (r : Z) : list Z :=
  [Z.lor 0xE0 (Z.shiftr r 12);
   Z.lor 0x80 (Z.land (Z.shiftr r 6) 0x3F);
   Z.lor 0x80 (Z.land r 0x3F)].

(** [AppendRune]: the bytes of one rune; a rune out of range or a
    surrogate half is written as [RuneError]. *)
Definition AppendRune (r : Z) : list Z :=
  if (0 <=? r) && (r <=? 0x7F) then [r]
  else if (0 <=? r) && (r <=? 0x7FF) then
    [Z.lor 0xC0 (Z.shiftr r 6); Z.lor 0x80 (Z.land r 0x3F)]
  else if (r <? 0) || (MaxRune <? r) || ((surrogateMin <=? r) && (r <=? surrogateMax))
    then encode3 RuneError
  else if r <=? 0xFFFF then encode3 r
  else
    [Z.lor 0xF0 (Z.shiftr r 18);
     Z.lor 0x80 (Z.land (Z.shiftr r 12) 0x3F);
     Z.lor 0x80 (Z.land (Z.shiftr r 6) 0x3F);
     Z.lor 0x80 (Z.land r 0x3F)].
End utf8.

Module strings.
Local Open Scope Z_scope.

Definition code (c : ascii) : Z := Z.of_N (N_of_ascii c).
Definition char (z : Z) : ascii := ascii_of_N (Z.to_N z).

Definition codes (s : string) : list Z := List.map code (list_ascii_of_string s).
Definition of_codes (l : list Z) : string := string_of_list_ascii (List.map char l).

Definition is_lower (c : Z) : bool := (code "a" <=? c) && (c <=? code "z").

(** [c -= 'a' - 'A'] on a lower-case letter, any other byte is kept. *)
Definition upper_byte (c : Z) : Z :=
  if is_lower c then c - (code "a" - code "A") else c.

Section Unicode.
(** The case tables of package [unicode] for the runes above ASCII
    ([unicode.To(unicode.UpperCase, r)]). *)
Variable CaseRanges_upper : Z -> Z.

Definition unicode_ToUpper (r : Z) : Z :=
  if r <=? 0x7F then upper_byte r else CaseRanges_upper r.

(** [strings.Map(mapping, s)]: every rune of [s] is mapped; a negative
    result drops the rune, any other result is written in UTF-8. *)
Definition Map (mapping : Z -> Z) (s : list Z) : list Z :=
  List.concat
    (List.map (fun c => let r := mapping c in
                        if 0 <=? r then utf8.AppendRune r else [])
              (utf8.runes s)).

(** [strings.ToUpper]: a string of ASCII bytes only is mapped byte by
    byte (and returned as it is when it has no lower-case letter);
    any other string goes through [Map] with [unicode.ToUpper]. *)
Definition ToUpper (s : string) : string :=
  let bs := codes s in
  let isASCII := forallb (fun c => c <? utf8.RuneSelf) bs in
  let hasLower := existsb is_lower bs in
  if isASCII then
    if negb hasLower then s
    else of_codes (List.map upper_byte bs)
  else of_codes (Map unicode_ToUpper bs).
End Unicode.
End strings.

Module time.
Local Open Scope Z_scope.

(** An instant, in nanoseconds since the zero instant; [time.Time{}] is
    the zero instant, which as a deadline means that there is none. *)
Definition Time : Type := Z.
Definition Duration : Type := Z.

Definition zero : Time := 0.
Definition Millisecond : Duration := 1000000.
Definition Add (t : Time) (d : Duration) : Time := t + d.
End time.

(** ** Errors *)

(** An error value with its [Unwrap] chain. [NetError] stands for the
    errors that implement [net.Error]; its flag is what [Timeout()]
    reports. *)
Inductive error : Type :=
| EOF
| ErrorString (msg : string)
| NetError (msg : string) (timeout : bool)
| Wrap (msg : string) (inner : error).

(** [errors.As(err, &netErr)] with [netErr] of type [net.Error]: the first
    error of the chain that implements the interface. *)
Fixpoint errors_As_net_Error (err : error) : option error :=
  match err with
  | EOF => None
  | ErrorString _ => None
  | NetError _ _ => Some err
  | Wrap _ inner => errors_As_net_Error inner
  end.

Definition Timeout (netErr : error) : bool :=
  match netErr with
  | NetError _ timeout => timeout
  | _ => false
  end.

(** ** Connections, metadata and the other values passed around *)

(** A [net.Conn]: a connection of the operating system, or the wrapped
    connection that [Peek] returns.

    Modelled from the spec: the wrapped connection, whose type is declared
    next to [Peek] in another file of the package. The spec has it as a
    connection "whose first reads replay those bytes, then proceed to
    unread underlying stream data": a buffer in front of the connection
    it wraps. The buffer is shared by whoever holds the wrapped
    connection, so it is a reference [r] into the store. *)
Inductive Conn : Type :=
| TCPConn (fd : nat)
| BufferedConn (r : nat) (c : Conn).

(** Modelled from the spec: [connection.Metadata], whose declaration is
    in another package. The spec has it as an opaque record with at least
    a target port; [flow] stands for whatever else it carries. *)
Record Metadata : Type := { TargetPort : Z; flow : nat }.

(** [interfaces.Logger], [interfaces.Honeypot] and [context.Context] are
    used as opaque references. *)
Record Logger : Type := { logger_ref : nat }.
Record Honeypot : Type := { honeypot_ref : nat }.
Record Context : Type := { context_ref : nat }.

Record UDPAddr : Type := { IP : list byte; Port : Z }.

(** The stream handlers of package [tcp]. *)
Inductive TCPHandler : Type :=
| SMTP | RDP | SMB | FTP | SIP | RFB | Telnet | MQTT | Bittorrent
| Memcache | Jabber | ADB | HTTP | TCP.

Inductive Level : Type := LevelDebug | LevelError.

(** ** The world outside the file *)

(** What a read meets once the bytes that have arrived are used up: the
    orderly end of the stream, a reset, or silence until the read
    deadline expires. The store says which of the three happens and
    every read returns; it does not derive the third from the deadline
    that is armed. *)
Inductive ReadEnd : Type := EndEOF | EndReset | EndTimeout.

Record Socket : Type := {
  pending : list byte;
  ending : ReadEnd;
  deadline : time.Time
}.

Record Net : Type := {
  socks : gmap nat Socket;
  readers : gmap nat (list byte)
}.

(** One entry per call that leaves the file, with its arguments and its
    result. *)
Inductive Event : Type :=
| EvSetReadDeadline (c : Conn) (t : time.Time) (res : option error)
| EvPeek (c : Conn) (width : nat) (snip : list byte) (bufConn : Conn)
         (err : option error)
| EvLog (lvl : Level) (log : Logger) (msg : string) (attr : error)
| EvSendBanner (port : Z) (c : Conn) (md : Metadata) (log : Logger)
               (h : Honeypot) (res : option error)
| EvTCP (f : TCPHandler) (ctx : Context) (c : Conn) (md : Metadata)
        (log : Logger) (h : Honeypot) (res : option error)
| EvUDP (ctx : Context) (srcAddr dstAddr : option UDPAddr) (data : list byte)
        (md : Metadata) (log : Logger) (h : Honeypot) (res : option error).

(** The answers of the collaborators: the clock, whether setting a
    deadline fails, and what the banner sender and the handlers return.
    A run of the classifier asks each question at most once, so fixed
    answers describe any behaviour of the collaborators in that run. *)
Record Env : Type := {
  clock : time.Time;
  deadline_fault : Conn -> time.Time -> option error;
  banner_result : Z -> Conn -> Metadata -> Logger -> Honeypot -> option error;
  tcp_result : TCPHandler -> Context -> Conn -> Metadata -> Logger -> Honeypot
               -> option error;
  udp_result : Context -> option UDPAddr -> option UDPAddr -> list byte
               -> Metadata -> Logger -> Honeypot -> option error
}.

Record State : Type := { net : Net; trace : list Event }.

(** Computations read the environment and thread the state. *)
Definition M (A : Type) : Type := Env -> State -> A * State.

Definition ret {A : Type} (a : A) : M A := fun _ s => (a, s).

Definition bind {A B : Type} (m : M A) (k : A -> M B) : M B :=
  fun e s => let '(a, s') := m e s in k a e s'.

#[global] Instance M_ret : MRet M := @ret.
#[global] Instance M_bind : MBind M := fun A B k m => bind m k.

Definition emit (ev : Event) : M unit :=
  fun _ s => (tt, {| net := net s; trace := trace s ++ [ev] |}).

Definition run {A : Type} (m : M A) (e : Env) (n : Net) : A * State :=
  m e {| net := n; trace := [] |}.

(** *** Connections *)

Fixpoint conn_fd (c : Conn) : nat :=
  match c with
  | TCPConn fd => fd
  | BufferedConn _ c' => conn_fd c'
  end.

Fixpoint conn_readers (c : Conn) : list nat :=
  match c with
  | TCPConn _ => []
  | BufferedConn r c' => r :: conn_readers c'
  end.

Definition with_pending (s : Socket) (bs : list byte) : Socket :=
  {| pending := bs; ending := ending s; deadline := deadline s |}.

Definition with_deadline (s : Socket) (t : time.Time) : Socket :=
  {| pending := pending s; ending := ending s; deadline := t |}.

Definition put_sock (n : Net) (fd : nat) (s : Socket) : Net :=
  {| socks := <[fd := s]> (socks n); readers := readers n |}.

Definition put_reader (n : Net) (r : nat) (buf : list byte) : Net :=
  {| socks := socks n; readers := <[r := buf]> (readers n) |}.

Definition reader_buf (n : Net) (r : nat) : list byte :=
  default [] (readers n !! r).

Definition end_error (e : ReadEnd) : error :=
  match e with
  | EndEOF => EOF
  | EndReset => NetError "connection reset by peer" false
  | EndTimeout => NetError "i/o timeout" true
  end.

Definition closed_error : error :=
  NetError "use of closed network connection" false.

(** Modelled from the spec: reading up to [k] bytes from a connection. A
    wrapped connection serves the bytes of its buffer first and goes on
    with the connection underneath. With fewer than [k] bytes the result
    carries the error that ended the read. *)
Fixpoint conn_read (n : Net) (c : Conn) (k : nat)
  : list byte * option error * Net :=
  match c with
  | TCPConn fd =>
    match socks n !! fd with
    | None => ([], Some closed_error, n)
    | Some s =>
      if (k <=? length (pending s))%nat
      then (take k (pending s), None,
            put_sock n fd (with_pending s (drop k (pending s))))
      else (pending s, Some (end_error (ending s)),
            put_sock n fd (with_pending s []))
    end
  | BufferedConn r c' =>
    let buf := reader_buf n r in
    if (k <=? length buf)%nat
    then (take k buf, None, put_reader n r (drop k buf))
    else
      let '(bs, err, n') := conn_read (put_reader n r []) c' (k - length buf) in
      (buf ++ bs, err, n')
  end.

(** Every byte that a reader of the connection has still to see: for a
    wrapped connection the buffer, then the stream underneath. *)
Fixpoint conn_stream (n : Net) (c : Conn) : list byte :=
  match c with
  | TCPConn fd =>
    match socks n !! fd with
    | None => []
    | Some s => pending s
    end
  | BufferedConn r c' => reader_buf n r ++ conn_stream n c'
  end.

(** No buffer is in front of a connection that it is itself part of: a
    wrapped connection is made after the connection it wraps. *)
Definition conn_wf (c : Conn) : Prop := NoDup (conn_readers c).

(** Modelled from the spec: [Peek(connection, width)], which is in another
    file of the package. It reads up to [width] bytes and returns them
    with a wrapped connection that replays them before the rest of the
    stream; a short read comes with the error that ended it (a timeout
    when the deadline expired, another error otherwise); it buffers and
    does nothing else. *)
Definition Peek_net (n : Net) (c : Conn) (width : nat)
  : list byte * Conn * option error * Net :=
  let '(snip, err, n1) := conn_read n c width in
  let r := fresh (dom (readers n1) ∪ list_to_set (conn_readers c) : gset nat) in
  (snip, BufferedConn r c, err, put_reader n1 r snip).

Definition Peek (c : Conn) (width : nat) : M (list byte * Conn * option error) :=
  fun _ s =>
    let '(snip, bufConn, err, n') := Peek_net (net s) c width in
    ((snip, bufConn, err),
     {| net := n'; trace := trace s ++ [EvPeek c width snip bufConn err] |}).

(** [conn.SetReadDeadline(t)]: the deadline of the underlying socket is
    replaced unless the call fails. *)
Definition set_deadline (n : Net) (c : Conn) (t : time.Time) : Net :=
  {| socks := alter (fun s => with_deadline s t) (conn_fd c) (socks n);
     readers := readers n |}.

Definition deadline_set (res : option error) (n : Net) (c : Conn) (t : time.Time)
  : Net :=
  match res with
  | None => set_deadline n c t
  | Some _ => n
  end.

Definition SetReadDeadline (c : Conn) (t : time.Time) : M (option error) :=
  fun e s =>
    let res := deadline_fault e c t in
    (res, {| net := deadline_set res (net s) c t;
             trace := trace s ++ [EvSetReadDeadline c t res] |}).

Definition time_Now : M time.Time := fun e s => (clock e, s).

(** *** The logger *)

Definition log_Error (log : Logger) (msg : string) (attr : error) : M unit :=
  emit (EvLog LevelError log msg attr).

Definition log_Debug (log : Logger) (msg : string) (attr : error) : M unit :=
  emit (EvLog LevelDebug log msg attr).

(** [producer.ErrAttr(err)] turns the error into a log attribute. *)
Definition ErrAttr (err : error) : error := err.

(** *** Packages [tcp] and [udp] *)

Module tcp.
(** A handler of package [tcp]: the call is recorded and the environment
    gives its result. What the handler does with the connection is its
    own business, so the store stays as it was when the handler was
    called. *)
Definition call (f : TCPHandler) (ctx : Context) (conn : Conn) (md : Metadata)
    (log : Logger) (h : Honeypot) : M (option error) :=
  fun e s =>
    let res := tcp_result e f ctx conn md log h in
    (res, {| net := net s;
             trace := trace s ++ [EvTCP f ctx conn md log h res] |}).

Definition HandleSMTP := call SMTP.
Definition HandleRDP := call RDP.
Definition HandleSMB := call SMB.
Definition HandleFTP := call FTP.
Definition HandleSIP := call SIP.
Definition HandleRFB := call RFB.
Definition HandleTelnet := call Telnet.
Definition HandleMQTT := call MQTT.
Definition HandleBittorrent := call Bittorrent.
Definition HandleMemcache := call Memcache.
Definition HandleJabber := call Jabber.
Definition HandleADB := call ADB.
Definition HandleHTTP := call HTTP.
Definition HandleTCP := call TCP.

Definition SendBanner (port : Z) (conn : Conn) (md : Metadata) (log : Logger)
    (h : Honeypot) : M (option error) :=
  fun e s =>
    let res := banner_result e port conn md log h in
    (res, {| net := net s;
             trace := trace s ++ [EvSendBanner port conn md log h res] |}).
End tcp.

Module udp.
Definition HandleUDP (ctx : Context) (srcAddr dstAddr : option UDPAddr)
    (data : list byte) (md : Metadata) (log : Logger) (h : Honeypot)
  : M (option error) :=
  fun e s =>
    let res := udp_result e ctx srcAddr dstAddr data md log h in
    (res, {| net := net s;
             trace := trace s ++ [EvUDP ctx srcAddr dstAddr data md log h res] |}).
End udp.

(** ** protocols.go *)

Definition TCPHandlerFunc : Type :=
  Context -> Conn -> Metadata -> M (option error).

Definition UDPHandlerFunc : Type :=
  Context -> option UDPAddr -> option UDPAddr -> list byte -> Metadata
  -> M (option error).

(** [if err := ...; err != nil { log.Error(msg, producer.ErrAttr(err)) }] *)
Definition log_if_err (log : Logger) (msg : string) (res : option error) : M unit :=
  match res with
  | Some err => log_Error log msg (ErrAttr err)
  | None => ret tt
  end.

(** [errors.As(err, &netErr) && netErr.Timeout()] *)
Definition is_timeout (err : option error) : bool :=
  match err with
  | None => false
  | Some e =>
    match errors_As_net_Error e with
    | Some netErr => Timeout netErr
    | None => false
    end
  end.

Definition httpMap : gmap string bool :=
  {[ "GET " := true; "POST" := true; "HEAD" := true; "OPTI" := true;
     "CONN" := true ]}.

Definition rdp_header : list byte := [x03; x00; x00; x2b].

Section Protocols.
(** The case tables that [strings.ToUpper] consults above ASCII. *)
Variable CaseRanges_upper : Z -> Z.

(** [_, ok := httpMap[strings.ToUpper(string(snip))]] *)
Definition http_ok (snip : list byte) : bool :=
  match httpMap !! strings.ToUpper CaseRanges_upper (string_of_list_byte snip) with
  | Some _ => true
  | None => false
  end.

(** [bytes.Equal(snip, []byte{0x03, 0x00, 0x00, 0x2b})] *)
Definition rdp_ok (snip : list byte) : bool := bool_decide (snip = rdp_header).

(** The handler that the two checks select, the HTTP check first. *)
Definition signature (snip : list byte) : TCPHandler :=
  if http_ok snip then HTTP else if rdp_ok snip then RDP else TCP.

(** The function stored under ["tcp"]. *)
Definition handler_tcp (log : Logger) (h : Honeypot) : TCPHandlerFunc :=
  fun ctx conn md =>
    now ← time_Now;
    res ← SetReadDeadline conn (time.Add now (500 * time.Millisecond)%Z);
    log_if_err log "failed to set read deadline" res ;;
    '(snip, bufConn, err) ← Peek conn 4;
    if is_timeout err then
      res ← tcp.SendBanner (TargetPort md) conn md log h;
      log_if_err log "Failed to send service banner" res ;;
      res ← SetReadDeadline conn time.zero;
      log_if_err log "failed to reset read deadline" res ;;
      tcp.HandleTCP ctx conn md log h
    else
      res ← SetReadDeadline conn time.zero;
      log_if_err log "failed to reset read deadline" res ;;
      match err with
      | Some e => log_Debug log "failed to peek connection" (ErrAttr e)
      | None => ret tt
      end ;;
      if http_ok snip then tcp.HandleHTTP ctx bufConn md log h
      else if rdp_ok snip then tcp.HandleRDP ctx bufConn md log h
      else tcp.HandleTCP ctx bufConn md log h.

Definition MapUDPProtocolHandlers (log : Logger) (h : Honeypot)
  : gmap string UDPHandlerFunc :=
  let protocolHandlers : gmap string UDPHandlerFunc := ∅ in
  let protocolHandlers :=
    <["udp" := fun ctx srcAddr dstAddr data md =>
                 udp.HandleUDP ctx srcAddr dstAddr data md log h]>
      protocolHandlers in
  protocolHandlers.

Definition MapTCPProtocolHandlers (log : Logger) (h : Honeypot)
  : gmap string TCPHandlerFunc :=
  let protocolHandlers : gmap string TCPHandlerFunc := ∅ in
  let protocolHandlers :=
    <["smtp" := fun ctx conn md => tcp.HandleSMTP ctx conn md log h]>
      protocolHandlers in
  let protocolHandlers :=
    <["rdp" := fun ctx conn md => tcp.HandleRDP ctx conn md log h]>
      protocolHandlers in
  let protocolHandlers :=
    <["smb" := fun ctx conn md => tcp.HandleSMB ctx conn md log h]>
      protocolHandlers in
  let protocolHandlers :=
    <["ftp" := fun ctx conn md => tcp.HandleFTP ctx conn md log h]>
      protocolHandlers in
  let protocolHandlers :=
    <["sip" := fun ctx conn md => tcp.HandleSIP ctx conn md log h]>
      protocolHandlers in
  let protocolHandlers :=
    <["rfb" := fun ctx conn md => tcp.HandleRFB ctx conn md log h]>
      protocolHandlers in
  let protocolHandlers :=
    <["telnet" := fun ctx conn md => tcp.HandleTelnet ctx conn md log h]>
      protocolHandlers in
  let protocolHandlers :=
    <["mqtt" := fun ctx conn md => tcp.HandleMQTT ctx conn md log h]>
      protocolHandlers in
  let protocolHandlers :=
    <["bittorrent" := fun ctx conn md => tcp.HandleBittorrent ctx conn md log h]>
      protocolHandlers in
  let protocolHandlers :=
    <["memcache" := fun ctx conn md => tcp.HandleMemcache ctx conn md log h]>
      protocolHandlers in
  let protocolHandlers :=
    <["jabber" := fun ctx conn md => tcp.HandleJabber ctx conn md log h]>
      protocolHandlers in
  let protocolHandlers :=
    <["adb" := fun ctx conn md => tcp.HandleADB ctx conn md log h]>
      protocolHandlers in
  let protocolHandlers :=
    <["tcp" := handler_tcp log h]>
      protocolHandlers in
  protocolHandlers.

End Protocols.

(** ** Reading a trace *)

(** The entries that [log_if_err] leaves. *)
Definition logged (log : Logger) (msg : string) (res : option error) : list Event :=
  match res with
  | Some err => [EvLog LevelError log msg err]
  | None => []
  end.

(** The stream handlers called, each with the connection it was given. *)
Definition dispatched (tr : list Event) : list (TCPHandler * Conn) :=
  omap (fun ev => match ev with
                  | EvTCP f _ c _ _ _ _ => Some (f, c)
                  | _ => None
                  end) tr.

(** The ports the banner sender was called with. *)
Definition banners (tr : list Event) : list Z :=
  omap (fun ev => match ev with
                  | EvSendBanner port _ _ _ _ _ => Some port
                  | _ => None
                  end) tr.

(** The deadline that the classifier arms. *)
Definition probe_deadline (e : Env) : time.Time :=
  time.Add (clock e) (500 * time.Millisecond)%Z.

(** The shapes of a run of the classifier, as traces. *)
Section Traces.
Variable U : Z -> Z.
Variables (log : Logger) (h : Honeypot) (ctx : Context) (conn : Conn) (md : Metadata).
Variable e : Env.

(** The entry that a failed probe leaves. *)
Definition peek_logged (err : option error) : list Event :=
  match err with
  | Some e0 => [EvLog LevelDebug log "failed to peek connection" e0]
  | None => []
  end.

Definition arm_trace : list Event :=
  let r1 := deadline_fault e conn (probe_deadline e) in
  [EvSetReadDeadline conn (probe_deadline e) r1]
  ++ logged log "failed to set read deadline" r1.

Definition clear_trace : list Event :=
  let r2 := deadline_fault e conn time.zero in
  [EvSetReadDeadline conn time.zero r2]
  ++ logged log "failed to reset read deadline" r2.

Definition timeout_trace snip bufConn err : list Event :=
  let rb := banner_result e (TargetPort md) conn md log h in
  arm_trace
  ++ [EvPeek conn 4 snip bufConn err]
  ++ [EvSendBanner (TargetPort md) conn md log h rb]
  ++ logged log "Failed to send service banner" rb
  ++ clear_trace
  ++ [EvTCP TCP ctx conn md log h (tcp_result e TCP ctx conn md log h)].

Definition signature_trace snip bufConn err : list Event :=
  arm_trace
  ++ [EvPeek conn 4 snip bufConn err]
  ++ clear_trace
  ++ peek_logged err
  ++ [EvTCP (signature U snip) ctx bufConn md log h
            (tcp_result e (signature U snip) ctx bufConn md log h)].
End Traces.

(** ** Bytes and characters *)

(** A byte of a UTF-8 sequence of more than one byte. *)
Definition high_byte (b : Z) : Prop := (128 <= b < 256)%Z.

Definition ascii_char (c : ascii) : Prop := (strings.code c < 128)%Z.

(** ** Sample values *)

Module Demo.
Definition upper : Z -> Z := fun r => r.
Definition log : Logger := {| logger_ref := 1 |}.
Definition h : Honeypot := {| honeypot_ref := 2 |}.
Definition ctx : Context := {| context_ref := 3 |}.
Definition md : Metadata := {| TargetPort := 2222%Z; flow := 7 |}.
Definition conn : Conn := TCPConn 0.

Definition sock (data : string) (e : ReadEnd) : Socket :=
  {| pending := list_byte_of_string data; ending := e; deadline := time.zero |}.

Definition world (data : string) (e : ReadEnd) : Net :=
  {| socks := {[ 0%nat := sock data e ]}; readers := ∅ |}.

(** The deadline calls succeed; the banner sender and the handlers fail,
    each with an error of its own. *)
Definition env : Env :=
  {| clock := 1000%Z;
     deadline_fault := fun _ _ => None;
     banner_result := fun _ _ _ _ _ => Some (ErrorString "banner");
     tcp_result := fun f _ _ _ _ _ =>
       match f with
       | HTTP => Some (ErrorString "http")
       | RDP => Some (ErrorString "rdp")
       | TCP => Some (ErrorString "tcp")
       | _ => None
       end;
     udp_result := fun _ _ _ _ _ _ _ => None |}.

(** The same, with failing deadline calls. *)
Definition faulty : Env :=
  {| clock := clock env;
     deadline_fault := fun _ _ => Some (ErrorString "deadline");
     banner_result := banner_result env;
     tcp_result := tcp_result env;
     udp_result := udp_result env |}.

(** A client that connects and says nothing. *)
Definition silent : Net := world EmptyString EndTimeout.

Definition rdp_world : Net :=
  {| socks := {[ 0%nat := {| pending := rdp_header ++ [x00; x00];
                             ending := EndEOF; deadline := time.zero |} ]};
     readers := ∅ |}.

(** The classifier on the sample connection, and the wrapped connection
    that its probe returns there. *)
Definition classify (e : Env) (n : Net) : option error * State :=
  run (handler_tcp upper log h ctx conn md) e n.

Definition wrapped : Conn := BufferedConn 0 conn.
End Demo.

(** ** More readings of a trace *)

(** The calls on the connection: deadlines and probes. *)
Definition io_calls (tr : list Event) : list Event :=
  omap (fun ev => match ev with
                  | EvSetReadDeadline _ _ _ | EvPeek _ _ _ _ _ => Some ev
                  | _ => None
                  end) tr.

(** The entries written to the logger. *)
Definition logs (tr : list Event) : list (Level * string * error) :=
  omap (fun ev => match ev with
                  | EvLog lvl _ msg attr => Some (lvl, msg, attr)
                  | _ => None
                  end) tr.

(** What [log.Error(msg, producer.ErrAttr(err))] writes for a result. *)
Definition failure_log (msg : string) (res : option error)
  : list (Level * string * error) :=
  match res with
  | Some err => [(LevelError, msg, err)]
  | None => []
  end.

(** The names of the registry that are bound to a handler of package
    [tcp], with that handler. *)
Definition named_handlers : list (string * TCPHandler) :=
  [("smtp", SMTP); ("rdp", RDP); ("smb", SMB); ("ftp", FTP); ("sip", SIP);
   ("rfb", RFB); ("telnet", Telnet); ("mqtt", MQTT);
   ("bittorrent", Bittorrent); ("memcache", Memcache); ("jabber", Jabber);
   ("adb", ADB)].

(** ** More sample values *)

Module Samples.
(** Arming the deadline works and clearing it fails. *)
Definition sticky : Env :=
  {| clock := clock Demo.env;
     deadline_fault := fun _ t =>
       if (t =? time.zero)%Z then Some (ErrorString "deadline") else None;
     banner_result := banner_result Demo.env;
     tcp_result := tcp_result Demo.env;
     udp_result := udp_result Demo.env |}.

(** A table that maps the long s (U+017F) to S and keeps the rest. *)
Definition long_s : Z -> Z := fun r => if (r =? 0x17F)%Z then 0x53%Z else r.
End Samples.

(** * Properties *)

(** ** The definitions on sample inputs *)

Example ToUpper_lower_case : strings.ToUpper Demo.upper "get " = "GET ".
Proof. reflexivity. Qed.

Example ToUpper_mixed_case : strings.ToUpper Demo.upper "OpTi" = "OPTI".
Proof. reflexivity. Qed.

(** A byte that is no UTF-8 is written back as U+FFFD. *)
Example ToUpper_invalid_byte :
  list_byte_of_string (strings.ToUpper Demo.upper (string_of_list_byte [x61; xff]))
  = [x41; xef; xbf; xbd].
Proof. reflexivity. Qed.

(** With a table that maps the long s (U+017F) to S, five bytes become
    the four of POST: the length of the snippet matters to the HTTP
    check. *)
Example ToUpper_long_s :
  strings.ToUpper (fun r => if (r =? 0x17F)%Z then 0x53%Z else r)
                  (string_of_list_byte [x50; x4f; xc5; xbf; x54])
  = "POST".
Proof. reflexivity. Qed.

Example is_timeout_deadline :
  is_timeout (Some (Wrap "read tcp" (NetError "i/o timeout" true))) = true.
Proof. reflexivity. Qed.

Example is_timeout_eof : is_timeout (Some EOF) = false.
Proof. reflexivity. Qed.

Example is_timeout_reset :
  is_timeout (Some (NetError "connection reset by peer" false)) = false.
Proof. reflexivity. Qed.

Example probe_deadline_half_second (e : Env) :
  probe_deadline e = (clock e + 500000000)%Z.
Proof. reflexivity. Qed.

(** A silent client, with a banner sender that fails. *)
Example silent_client_trace :
  Demo.classify Demo.env Demo.silent
  = (Some (ErrorString "tcp"),
     {| net := {| socks := {[ 0%nat := Demo.sock EmptyString EndTimeout ]};
                  readers := {[ 0%nat := [] ]} |};
        trace :=
          [EvSetReadDeadline Demo.conn 500001000%Z None;
           EvPeek Demo.conn 4 [] Demo.wrapped (Some (NetError "i/o timeout" true));
           EvSendBanner 2222%Z Demo.conn Demo.md Demo.log Demo.h
                        (Some (ErrorString "banner"));
           EvLog LevelError Demo.log "Failed to send service banner"
                 (ErrorString "banner");
           EvSetReadDeadline Demo.conn time.zero None;
           EvTCP TCP Demo.ctx Demo.conn Demo.md Demo.log Demo.h
                 (Some (ErrorString "tcp"))] |}).
Proof. vm_compute. reflexivity. Qed.

(** ** Upper-casing and the two signature checks *)

Section Utf8Facts.
Local Open Scope Z_scope.

Lemma lor_high c x : high_byte c -> 0 <= x < 256 -> high_byte (Z.lor c x).
Proof.
  unfold high_byte. intros Hc Hx.
  assert (Hnn : 0 <= Z.lor c x) by (apply Z.lor_nonneg; lia).
  assert (Hlt : Z.lor c x < 256).
  { destruct (Z.eq_dec (Z.lor c x) 0) as [->|Hne]; [lia|].
    change 256 with (2 ^ 8). apply Z.log2_lt_pow2; [lia|].
    rewrite Z.log2_lor by lia.
    assert (Z.log2 c < 8) by (apply Z.log2_lt_pow2; lia).
    destruct (Z.eq_dec x 0) as [->|Hx0]; [cbn; lia|].
    assert (Z.log2 x < 8) by (apply Z.log2_lt_pow2; lia).
    lia. }
  assert (Hbit : Z.testbit (Z.lor c x) 7 = true).
  { rewrite Z.lor_spec. replace (Z.testbit c 7) with true; [reflexivity|].
    symmetry. apply Z.testbit_true; [lia|].
    change (2 ^ 7) with 128.
    assert (Hq : c / 128 = 1) by (symmetry; apply Z.div_unique with (c - 128); lia).
    rewrite Hq. reflexivity. }
  apply Z.testbit_true in Hbit; [|lia]. change (2 ^ 7) with 128 in Hbit.
  split; [|lia].
  destruct (Z_lt_le_dec (Z.lor c x) 128) as [Hsmall|]; [|lia].
  rewrite Z.div_small in Hbit by lia. discriminate.
Qed.

Lemma land_3F x : 0 <= Z.land x 0x3F < 256.
Proof.
  change 0x3F with (Z.ones 6). rewrite Z.land_ones by lia.
  pose proof (Z.mod_pos_bound x (2 ^ 6)). lia.
Qed.

Lemma shiftr_bound r k m :
  0 <= r <= m -> 0 <= k -> m < 256 * 2 ^ k -> 0 <= Z.shiftr r k < 256.
Proof.
  intros Hr Hk Hm. rewrite Z.shiftr_div_pow2 by lia.
  assert (0 < 2 ^ k) by (apply Z.pow_pos_nonneg; lia).
  split; [apply Z.div_pos; lia|].
  apply Z.div_lt_upper_bound; lia.
Qed.

Ltac high_bytes :=
  repeat (apply Forall_cons_2;
          [apply lor_high; [unfold high_byte; lia | try apply land_3F] |]);
  try apply Forall_nil_2.

Lemma encode3_high r : 0 <= r <= 0xFFFF -> Forall high_byte (utf8.encode3 r).
Proof.
  intros Hr. unfold utf8.encode3.
  high_bytes; apply shiftr_bound with 0xFFFF; lia.
Qed.

(** One rune is written as one ASCII byte or as high bytes only. *)
Lemma AppendRune_shape r :
  (utf8.AppendRune r = [r] /\ 0 <= r <= 0x7F)
  \/ (utf8.AppendRune r <> [] /\ Forall high_byte (utf8.AppendRune r)).
Proof.
  unfold utf8.AppendRune.
  destruct ((0 <=? r) && (r <=? 0x7F)) eqn:H1.
  { left. split; [reflexivity|]. lia. }
  right.
  destruct ((0 <=? r) && (r <=? 0x7FF)) eqn:H2.
  { split; [discriminate|].
    high_bytes; apply shiftr_bound with 0x7FF; lia. }
  destruct ((r <? 0) || (utf8.MaxRune <? r)
            || ((utf8.surrogateMin <=? r) && (r <=? utf8.surrogateMax))) eqn:H3.
  { split; [discriminate|]. apply encode3_high. unfold utf8.RuneError. lia. }
  unfold utf8.MaxRune in H3.
  destruct (r <=? 0xFFFF) eqn:H4.
  { split; [discriminate|]. apply encode3_high. lia. }
  split; [discriminate|].
  high_bytes; apply shiftr_bound with 0x10FFFF; lia.
Qed.

Lemma runes_length_aux n : forall s, (length s <= n)%nat ->
  (length (utf8.runes s) <= length s)%nat.
Proof.
  induction n as [|n IH]; intros s Hlen.
  { destruct s; [cbn; lia | cbn in Hlen; lia]. }
  destruct s as [|b0 t0]; [cbn; lia|].
  cbn [length] in Hlen.
  assert (H0 : (length (utf8.runes t0) <= length t0)%nat) by (apply IH; lia).
  cbn [utf8.runes].
  destruct (utf8.first b0); cbn [length]; try lia.
  - destruct t0 as [|b1 t1]; [cbn in *; lia|].
    destruct (utf8.within lo hi b1); cbn [length] in *; [|lia].
    specialize (IH t1 ltac:(lia)). lia.
  - destruct t0 as [|b1 [|b2 t2]]; try (cbn [length] in *; lia).
    destruct (utf8.within lo hi b1 && utf8.continuation b2);
      cbn [length] in *; [|lia].
    specialize (IH t2 ltac:(lia)). lia.
  - destruct t0 as [|b1 [|b2 [|b3 t3]]]; try (cbn [length] in *; lia).
    destruct (utf8.within lo hi b1 && utf8.continuation b2 && utf8.continuation b3);
      cbn [length] in *; [|lia].
    specialize (IH t3 ltac:(lia)). lia.
Qed.

Lemma runes_length s : (length (utf8.runes s) <= length s)%nat.
Proof. by apply runes_length_aux with (length s). Qed.
End Utf8Facts.

Section ToUpperFacts.
Variable U : Z -> Z.

Lemma string_length_list (s : string) :
  String.length s = length (list_ascii_of_string s).
Proof. induction s as [|c s IH]; cbn; congruence. Qed.

Lemma of_codes_length l : String.length (strings.of_codes l) = length l.
Proof.
  unfold strings.of_codes.
  by rewrite string_length_list, list_ascii_of_string_of_list_ascii, length_map.
Qed.

Lemma codes_length s : length (strings.codes s) = String.length s.
Proof. unfold strings.codes. by rewrite length_map, string_length_list. Qed.

Lemma string_of_list_byte_length (l : list byte) :
  String.length (string_of_list_byte l) = length l.
Proof.
  unfold string_of_list_byte.
  by rewrite string_length_list, list_ascii_of_string_of_list_ascii, length_map.
Qed.

Lemma char_high b : high_byte b -> ~ ascii_char (strings.char b).
Proof.
  unfold high_byte, ascii_char, strings.code, strings.char. intros Hb.
  rewrite N_ascii_embedding.
  - rewrite Z2N.id; lia.
  - change 256%N with (Z.to_N 256). apply Z2N.inj_lt; lia.
Qed.

(** When what [Map] wrote is ASCII only, every byte of it comes from a
    rune of its own. *)
Lemma Map_ascii_length (g : Z -> list Z) (rs : list Z) :
  (forall c, g c = [] \/ (exists r, g c = [r])
             \/ (g c <> [] /\ Forall high_byte (g c))) ->
  Forall ascii_char (List.map strings.char (List.concat (List.map g rs))) ->
  length (List.concat (List.map g rs)) <= length rs.
Proof.
  intros Hg. induction rs as [|c rs IH]; cbn; [lia|].
  intros Hall. rewrite map_app in Hall. apply Forall_app in Hall as [Hc Hrest].
  specialize (IH Hrest). rewrite length_app.
  destruct (Hg c) as [->|[[r ->]|[Hne Hhigh]]]; [cbn; lia | cbn; lia |].
  destruct (g c) as [|b bs]; [done|].
  apply Forall_cons in Hhigh as [Hb _]. cbn in Hc.
  apply Forall_cons in Hc as [Hc _]. by apply char_high in Hb.
Qed.

Lemma Map_shape (f : Z -> Z) (c : Z) :
  let g := fun c => let r := f c in
                    if (0 <=? r)%Z then utf8.AppendRune r else [] in
  g c = [] \/ (exists r, g c = [r]) \/ (g c <> [] /\ Forall high_byte (g c)).
Proof.
  cbv beta zeta. destruct (0 <=? f c)%Z; [|by left]. right.
  destruct (AppendRune_shape (f c)) as [[-> _]|H]; [left; eauto | by right].
Qed.

Lemma ToUpper_ascii_length (s : string) :
  Forall ascii_char (list_ascii_of_string (strings.ToUpper U s)) ->
  String.length (strings.ToUpper U s) <= String.length s.
Proof.
  unfold strings.ToUpper.
  destruct (forallb _ _).
  - destruct (negb _); [intros _; lia|].
    intros _. by rewrite of_codes_length, length_map, codes_length.
  - unfold strings.of_codes at 1. rewrite list_ascii_of_string_of_list_ascii.
    intros Hall. apply Map_ascii_length in Hall; [|apply Map_shape].
    rewrite of_codes_length. etrans; [exact Hall|].
    rewrite <- codes_length. apply runes_length.
Qed.

Lemma httpMap_keys (k : string) (v : bool) :
  httpMap !! k = Some v -> k ∈ ["GET "; "POST"; "HEAD"; "OPTI"; "CONN"].
Proof.
  unfold httpMap. intros Hk.
  repeat (apply lookup_insert_Some in Hk as [[<- _]|[_ Hk]]; [set_solver|]).
  apply lookup_singleton_Some in Hk as [<- _]. set_solver.
Qed.

Lemma httpMap_lookup (k : string) :
  k ∈ ["GET "; "POST"; "HEAD"; "OPTI"; "CONN"] -> httpMap !! k = Some true.
Proof.
  intros Hk. repeat (apply elem_of_cons in Hk as [->|Hk]; [reflexivity|]).
  by apply not_elem_of_nil in Hk.
Qed.

Lemma http_key_shape (k : string) :
  k ∈ ["GET "; "POST"; "HEAD"; "OPTI"; "CONN"] ->
  String.length k = 4 /\ Forall ascii_char (list_ascii_of_string k).
Proof.
  intros Hk.
  repeat (apply elem_of_cons in Hk as [->|Hk];
          [split; [reflexivity | repeat constructor] |]).
  by apply not_elem_of_nil in Hk.
Qed.

Lemma http_ok_spec (snip : list byte) :
  http_ok U snip = true <->
  strings.ToUpper U (string_of_list_byte snip)
    ∈ ["GET "; "POST"; "HEAD"; "OPTI"; "CONN"].
Proof.
  unfold http_ok. split.
  - destruct (httpMap !! _) as [v|] eqn:Hk; [|discriminate].
    intros _. by apply httpMap_keys in Hk.
  - intros Hk. by rewrite (httpMap_lookup _ Hk).
Qed.

Lemma http_ok_length (snip : list byte) :
  http_ok U snip = true -> 4 <= length snip.
Proof.
  intros Hok. apply http_ok_spec, http_key_shape in Hok as [Hlen Hascii].
  apply ToUpper_ascii_length in Hascii.
  rewrite string_of_list_byte_length in Hascii. lia.
Qed.

Lemma rdp_ok_spec (snip : list byte) : rdp_ok snip = true <-> snip = rdp_header.
Proof. unfold rdp_ok. apply bool_decide_eq_true. Qed.

Lemma rdp_header_not_http : http_ok U rdp_header = false.
Proof. reflexivity. Qed.
End ToUpperFacts.

(** ** Streams and the probe *)

Section Streams.

Lemma conn_stream_set_deadline n c t c' :
  conn_stream (set_deadline n c t) c' = conn_stream n c'.
Proof.
  induction c' as [fd|r c' IH]; cbn.
  - destruct (decide (conn_fd c = fd)) as [<-|Hne].
    + rewrite lookup_alter_eq. by destruct (socks n !! conn_fd c).
    + by rewrite lookup_alter_ne.
  - by rewrite IH.
Qed.

Lemma conn_stream_deadline_set res n c t c' :
  conn_stream (deadline_set res n c t) c' = conn_stream n c'.
Proof. destruct res; [reflexivity | apply conn_stream_set_deadline]. Qed.

Lemma conn_stream_put_reader n r buf c :
  r ∉ conn_readers c -> conn_stream (put_reader n r buf) c = conn_stream n c.
Proof.
  induction c as [fd|r' c IH]; cbn; [done|].
  intros Hr. apply not_elem_of_cons in Hr as [Hne Hr].
  unfold reader_buf at 1. cbn. rewrite lookup_insert_ne by done.
  by rewrite IH.
Qed.

(** A read touches no reader but those of the connection. *)
Lemma conn_read_frame c : forall n k bs err n' r,
  conn_read n c k = (bs, err, n') -> r ∉ conn_readers c ->
  readers n' !! r = readers n !! r.
Proof.
  induction c as [fd|r0 c IH]; intros n k bs err n' r Hread Hr; cbn in Hread.
  - destruct (socks n !! fd) as [s|]; [|by injection Hread as <- <- <-].
    by destruct (k <=? length (pending s)); injection Hread as <- <- <-.
  - apply not_elem_of_cons in Hr as [Hne Hr].
    destruct (k <=? length (reader_buf n r0)).
    + injection Hread as <- <- <-. cbn. by rewrite lookup_insert_ne.
    + destruct (conn_read (put_reader n r0 []) c (k - length (reader_buf n r0)))
        as [[bs0 err0] n0] eqn:Hrec.
      injection Hread as <- <- <-.
      rewrite (IH _ _ _ _ _ r Hrec Hr). cbn. by rewrite lookup_insert_ne.
Qed.

(** What was read, followed by what is left, is what was there. *)
Lemma conn_read_stream c : forall n k bs err n',
  conn_wf c -> conn_read n c k = (bs, err, n') ->
  bs ++ conn_stream n' c = conn_stream n c.
Proof.
  induction c as [fd|r c IH]; intros n k bs err n' Hwf Hread; cbn in Hread.
  - cbn. destruct (socks n !! fd) as [s|] eqn:Hs.
    + destruct (k <=? length (pending s));
        injection Hread as <- <- <-; cbn; rewrite lookup_insert_eq; cbn.
      * apply take_drop.
      * apply app_nil_r.
    + injection Hread as <- <- <-. by rewrite Hs.
  - apply NoDup_cons in Hwf as [Hr Hwf]. cbn [conn_stream].
    destruct (k <=? length (reader_buf n r)).
    + injection Hread as <- <- <-.
      rewrite conn_stream_put_reader by done.
      unfold reader_buf at 2. cbn. rewrite lookup_insert_eq. cbn.
      by rewrite app_assoc, take_drop.
    + destruct (conn_read (put_reader n r []) c (k - length (reader_buf n r)))
        as [[bs0 err0] n0] eqn:Hrec.
      injection Hread as <- <- <-.
      pose proof (conn_read_frame _ _ _ _ _ _ r Hrec Hr) as Hframe.
      unfold reader_buf at 2. rewrite Hframe. cbn. rewrite lookup_insert_eq. cbn.
      rewrite <- app_assoc, (IH _ _ _ _ _ Hwf Hrec).
      by rewrite conn_stream_put_reader.
Qed.

(** A read is short only when the stream is. *)
Lemma conn_read_full c : forall n k bs err n',
  conn_wf c -> conn_read n c k = (bs, err, n') -> 0 < k ->
  k <= length (conn_stream n c) -> err = None /\ length bs = k.
Proof.
  induction c as [fd|r c IH]; intros n k bs err n' Hwf Hread Hk Hlen;
    cbn in Hread, Hlen.
  - destruct (socks n !! fd) as [s|]; [|cbn in Hlen; lia].
    destruct (k <=? length (pending s)) eqn:Hle.
    + injection Hread as <- <- <-. split; [done|]. rewrite length_take.
      apply Nat.leb_le in Hle. lia.
    + apply Nat.leb_gt in Hle. lia.
  - apply NoDup_cons in Hwf as [Hr Hwf]. rewrite length_app in Hlen.
    destruct (k <=? length (reader_buf n r)) eqn:Hle.
    + injection Hread as <- <- <-. split; [done|]. rewrite length_take.
      apply Nat.leb_le in Hle. lia.
    + apply Nat.leb_gt in Hle.
      destruct (conn_read (put_reader n r []) c (k - length (reader_buf n r)))
        as [[bs0 err0] n0] eqn:Hrec.
      injection Hread as <- <- <-.
      apply IH in Hrec as [-> Hbs]; [| done | lia |].
      * split; [done|]. rewrite length_app. lia.
      * rewrite conn_stream_put_reader by done. lia.
Qed.

(** The wrapped connection of [Peek] replays the snippet and then goes on
    with the connection it wraps: nothing of the stream is lost. *)
Lemma Peek_net_replay n c w snip bufConn err n' :
  conn_wf c -> Peek_net n c w = (snip, bufConn, err, n') ->
  conn_wf bufConn
  /\ (exists r, bufConn = BufferedConn r c)
  /\ conn_stream n' bufConn = snip ++ conn_stream n' c
  /\ conn_stream n' bufConn = conn_stream n c.
Proof.
  intros Hwf. unfold Peek_net.
  destruct (conn_read n c w) as [[bs err0] n1] eqn:Hread.
  set (r := fresh _). intros Hpeek. injection Hpeek as <- <- <- <-.
  assert (Hr : r ∉ conn_readers c).
  { pose proof (is_fresh (dom (readers n1) ∪ list_to_set (conn_readers c) : gset nat))
      as Hfresh.
    fold r in Hfresh. set_solver. }
  assert (Hbuf : reader_buf (put_reader n1 r bs) r = bs).
  { unfold reader_buf. cbn. by rewrite lookup_insert_eq. }
  repeat split.
  - by apply NoDup_cons.
  - eauto.
  - cbn [conn_stream]. by rewrite Hbuf.
  - cbn [conn_stream]. rewrite Hbuf, conn_stream_put_reader by done.
    by apply conn_read_stream with w err0.
Qed.

Lemma Peek_net_reader n c w snip bufConn err n' :
  Peek_net n c w = (snip, bufConn, err, n') ->
  exists r, bufConn = BufferedConn r c /\ reader_buf n' r = snip.
Proof.
  unfold Peek_net. destruct (conn_read n c w) as [[bs err0] n1].
  intros [= <- <- <- <-]. eexists. split; [reflexivity|].
  unfold reader_buf. cbn. by rewrite lookup_insert_eq.
Qed.

Lemma reader_buf_deadline_set res n c t r :
  reader_buf (deadline_set res n c t) r = reader_buf n r.
Proof. by destruct res. Qed.

(** A read of as many bytes as the buffer holds returns the buffer. *)
Lemma conn_read_buffer n r c :
  (conn_read n (BufferedConn r c) (length (reader_buf n r))).1
  = (reader_buf n r, None).
Proof. cbn. by rewrite Nat.leb_refl, firstn_all. Qed.

Lemma Peek_net_full n c snip bufConn err n' :
  conn_wf c -> Peek_net n c 4 = (snip, bufConn, err, n') ->
  4 <= length (conn_stream n c) ->
  err = None /\ snip = take 4 (conn_stream n c).
Proof.
  intros Hwf Hpeek Hlen.
  destruct (Peek_net_replay _ _ _ _ _ _ _ Hwf Hpeek) as (_ & _ & Hsnip & Hall).
  unfold Peek_net in Hpeek.
  destruct (conn_read n c 4) as [[bs err0] n1] eqn:Hread.
  injection Hpeek as <- _ <- _.
  apply conn_read_full in Hread as [-> Hbs]; [| done | lia | done].
  split; [done|].
  rewrite <- Hall, Hsnip, take_app_length'; done.
Qed.
End Streams.

Lemma set_deadline_lookup n c t s :
  socks (set_deadline n c t) !! conn_fd c = Some s -> deadline s = t.
Proof.
  cbn. rewrite lookup_alter_eq.
  destruct (socks n !! conn_fd c); cbn; [|done]. by intros [= <-].
Qed.

Lemma conn_read_whole c : forall n k bs err n',
  conn_read n c k = (bs, err, n') -> 0 < k -> length bs = k -> err = None.
Proof.
  induction c as [fd|r c IH]; intros n k bs err n' Hread Hk Hlen; cbn in Hread.
  - destruct (socks n !! fd) as [s|].
    + destruct (k <=? length (pending s)) eqn:Hle.
      * by injection Hread as <- <- <-.
      * apply Nat.leb_gt in Hle. injection Hread as <- <- <-. lia.
    + injection Hread as <- <- <-. cbn in Hlen. lia.
  - destruct (k <=? length (reader_buf n r)) eqn:Hle.
    + by injection Hread as <- <- <-.
    + apply Nat.leb_gt in Hle.
      destruct (conn_read (put_reader n r []) c (k - length (reader_buf n r)))
        as [[bs0 err0] n0] eqn:Hrec.
      injection Hread as <- <- <-. rewrite length_app in Hlen.
      apply (IH _ _ _ _ _ Hrec); lia.
Qed.

Lemma Peek_net_whole n c snip bufConn err n' :
  Peek_net n c 4 = (snip, bufConn, err, n') -> length snip = 4 -> err = None.
Proof.
  unfold Peek_net. destruct (conn_read n c 4) as [[bs err0] n1] eqn:Hread.
  intros [= <- _ <- _] Hlen. apply (conn_read_whole _ _ _ _ _ _ Hread); lia.
Qed.

(** ** Runs of the classifier *)

Lemma log_if_err_run log msg res e s :
  log_if_err log msg res e s =
  (tt, {| net := net s; trace := trace s ++ logged log msg res |}).
Proof.
  destruct s as [n tr], res as [err|]; cbn.
  - reflexivity.
  - by rewrite app_nil_r.
Qed.

Lemma tcp_call_run f ctx c md log h e s :
  tcp.call f ctx c md log h e s =
  (tcp_result e f ctx c md log h,
   {| net := net s;
      trace := trace s ++ [EvTCP f ctx c md log h (tcp_result e f ctx c md log h)] |}).
Proof. reflexivity. Qed.

Section Classifier.
Variable U : Z -> Z.
Variables (log : Logger) (h : Honeypot) (ctx : Context) (conn : Conn) (md : Metadata).

Lemma handler_tcp_run (e : Env) (n : Net) snip bufConn err n2 :
  let r1 := deadline_fault e conn (probe_deadline e) in
  let r2 := deadline_fault e conn time.zero in
  Peek_net (deadline_set r1 n conn (probe_deadline e)) conn 4
  = (snip, bufConn, err, n2) ->
  run (handler_tcp U log h ctx conn md) e n =
  if is_timeout err then
    (tcp_result e TCP ctx conn md log h,
     {| net := deadline_set r2 n2 conn time.zero;
        trace := timeout_trace log h ctx conn md e snip bufConn err |})
  else
    (tcp_result e (signature U snip) ctx bufConn md log h,
     {| net := deadline_set r2 n2 conn time.zero;
        trace := signature_trace U log h ctx conn md e snip bufConn err |}).
Proof.
  intros r1 r2 Hpeek.
  unfold run, handler_tcp, mbind, M_bind, bind, time_Now, SetReadDeadline, Peek.
  cbn [net trace].
  fold (probe_deadline e). fold r1.
  rewrite log_if_err_run. cbn [net trace]. rewrite Hpeek.
  destruct (is_timeout err).
  - unfold tcp.SendBanner, tcp.HandleTCP. cbn [net trace].
    rewrite !log_if_err_run, tcp_call_run. cbn [net trace].
    unfold timeout_trace, arm_trace, clear_trace. fold r1 r2.
    rewrite <- !app_assoc. reflexivity.
  - rewrite log_if_err_run. cbn [net trace]. fold r2.
    assert (Hdbg : forall s, match err with
                     | Some e1 => log_Debug log "failed to peek connection" (ErrAttr e1)
                     | None => ret ()
                     end e s
                     = (tt, {| net := net s;
                               trace := trace s ++ peek_logged log err |})).
    { intros [n0 tr]. destruct err; cbn; [reflexivity | by rewrite app_nil_r]. }
    rewrite Hdbg. cbn [net trace].
    unfold signature_trace, arm_trace, clear_trace, signature,
      tcp.HandleHTTP, tcp.HandleRDP, tcp.HandleTCP. fold r1 r2.
    destruct (http_ok U snip); [|destruct (rdp_ok snip)];
      rewrite tcp_call_run; cbn [net trace];
      rewrite <- !app_assoc; reflexivity.
Qed.
End Classifier.

Lemma elem_of_logged ev log msg res :
  ev ∈ logged log msg res -> exists a, ev = EvLog LevelError log msg a.
Proof.
  destruct res as [a|]; cbn; intros Hin.
  - apply list_elem_of_singleton in Hin. eauto.
  - by apply not_elem_of_nil in Hin.
Qed.

Lemma elem_of_peek_logged ev log err :
  ev ∈ peek_logged log err ->
  exists a, ev = EvLog LevelDebug log "failed to peek connection" a.
Proof.
  destruct err as [a|]; cbn; intros Hin.
  - apply list_elem_of_singleton in Hin. eauto.
  - by apply not_elem_of_nil in Hin.
Qed.

Ltac split_trace H :=
  repeat first
    [ apply elem_of_app in H; destruct H as [H|H]
    | apply elem_of_cons in H; destruct H as [H|H]
    | apply elem_of_logged in H; destruct H as [? H]
    | apply elem_of_peek_logged in H; destruct H as [? H]
    | apply not_elem_of_nil in H; destruct H ];
  try discriminate H.

Section TraceFacts.
Variable U : Z -> Z.
Variables (log : Logger) (h : Honeypot) (ctx : Context) (conn : Conn) (md : Metadata).
Variable e : Env.

Lemma peek_in_timeout_trace c w s b er snip bufConn err :
  EvPeek c w s b er ∈ timeout_trace log h ctx conn md e snip bufConn err ->
  s = snip /\ b = bufConn /\ er = err.
Proof.
  unfold timeout_trace, arm_trace, clear_trace. intros Hin.
  split_trace Hin. by injection Hin as -> -> -> -> ->.
Qed.

Lemma peek_in_signature_trace c w s b er snip bufConn err :
  EvPeek c w s b er ∈ signature_trace U log h ctx conn md e snip bufConn err ->
  s = snip /\ b = bufConn /\ er = err.
Proof.
  unfold signature_trace, arm_trace, clear_trace. intros Hin.
  split_trace Hin. by injection Hin as -> -> -> -> ->.
Qed.

Lemma dispatched_timeout_trace snip bufConn err :
  dispatched (timeout_trace log h ctx conn md e snip bufConn err) = [(TCP, conn)].
Proof.
  unfold timeout_trace, arm_trace, clear_trace.
  destruct (deadline_fault e conn (probe_deadline e)),
    (deadline_fault e conn time.zero),
    (banner_result e (TargetPort md) conn md log h); reflexivity.
Qed.

Lemma banners_timeout_trace snip bufConn err :
  banners (timeout_trace log h ctx conn md e snip bufConn err) = [TargetPort md].
Proof.
  unfold timeout_trace, arm_trace, clear_trace.
  destruct (deadline_fault e conn (probe_deadline e)),
    (deadline_fault e conn time.zero),
    (banner_result e (TargetPort md) conn md log h); reflexivity.
Qed.

Lemma dispatched_signature_trace snip bufConn err :
  dispatched (signature_trace U log h ctx conn md e snip bufConn err)
  = [(signature U snip, bufConn)].
Proof.
  unfold signature_trace, arm_trace, clear_trace.
  destruct (deadline_fault e conn (probe_deadline e)),
    (deadline_fault e conn time.zero), err; reflexivity.
Qed.

Lemma banners_signature_trace snip bufConn err :
  banners (signature_trace U log h ctx conn md e snip bufConn err) = [].
Proof.
  unfold signature_trace, arm_trace, clear_trace.
  destruct (deadline_fault e conn (probe_deadline e)),
    (deadline_fault e conn time.zero), err; reflexivity.
Qed.

(** Every run is one of the two shapes, and the probe that its trace
    shows is the one that chose between them. *)
Lemma handler_tcp_inv (n : Net) result st snip bufConn err :
  run (handler_tcp U log h ctx conn md) e n = (result, st) ->
  EvPeek conn 4 snip bufConn err ∈ trace st ->
  exists n2,
    Peek_net (deadline_set (deadline_fault e conn (probe_deadline e)) n conn
                           (probe_deadline e)) conn 4 = (snip, bufConn, err, n2)
    /\ net st = deadline_set (deadline_fault e conn time.zero) n2 conn time.zero
    /\ if is_timeout err then
         result = tcp_result e TCP ctx conn md log h
         /\ trace st = timeout_trace log h ctx conn md e snip bufConn err
       else
         result = tcp_result e (signature U snip) ctx bufConn md log h
         /\ trace st = signature_trace U log h ctx conn md e snip bufConn err.
Proof.
  intros Hrun Hin.
  destruct (Peek_net (deadline_set (deadline_fault e conn (probe_deadline e)) n conn
                                   (probe_deadline e)) conn 4)
    as [[[snip0 bufConn0] err0] n2] eqn:Hpeek.
  rewrite (handler_tcp_run U log h ctx conn md e n _ _ _ _ Hpeek) in Hrun.
  exists n2.
  destruct (is_timeout err0) eqn:Ht; injection Hrun as <- <-; cbn [trace net] in *.
  - apply peek_in_timeout_trace in Hin as (-> & -> & ->).
    rewrite Ht. auto.
  - apply peek_in_signature_trace in Hin as (-> & -> & ->).
    rewrite Ht. auto.
Qed.
End TraceFacts.

(** ** The claims of the specification *)

Section Claims.
Variable U : Z -> Z.
Variables (log : Logger) (h : Honeypot) (ctx : Context) (conn : Conn) (md : Metadata).
Variables (e : Env) (n : Net).
Variables (result : option error) (st : State).
Variables (snip : list byte) (bufConn : Conn) (err : option error).

Hypothesis Hrun : run (handler_tcp U log h ctx conn md) e n = (result, st).
Hypothesis Hprobe : EvPeek conn 4 snip bufConn err ∈ trace st.

(** C1. When the probe of four bytes ends in a network timeout, the run
    is: arm the deadline of 500 ms, probe, send the banner once for the
    target port of the metadata, clear the deadline, call the raw TCP
    handler on the connection as it was passed in. A failure of any of
    these calls is logged and nothing else. The HTTP and RDP handlers are
    not called, and the result is the one of the raw TCP handler. *)
Theorem timeout_sends_banner_then_raw_tcp :
  is_timeout err = true ->
  let armed := deadline_fault e conn (time.Add (clock e) (500 * time.Millisecond)%Z) in
  let sent := banner_result e (TargetPort md) conn md log h in
  let cleared := deadline_fault e conn time.zero in
  trace st =
    [EvSetReadDeadline conn (time.Add (clock e) (500 * time.Millisecond)%Z) armed]
    ++ logged log "failed to set read deadline" armed
    ++ [EvPeek conn 4 snip bufConn err]
    ++ [EvSendBanner (TargetPort md) conn md log h sent]
    ++ logged log "Failed to send service banner" sent
    ++ [EvSetReadDeadline conn time.zero cleared]
    ++ logged log "failed to reset read deadline" cleared
    ++ [EvTCP TCP ctx conn md log h result]
  /\ banners (trace st) = [TargetPort md]
  /\ dispatched (trace st) = [(TCP, conn)]
  /\ result = tcp_result e TCP ctx conn md log h
  /\ (cleared = None ->
      forall s, socks (net st) !! conn_fd conn = Some s -> deadline s = time.zero).
Proof.
  intros Ht.
  destruct (handler_tcp_inv U log h ctx conn md e n _ _ _ _ _ Hrun Hprobe)
    as (n2 & _ & Hnet & Hshape).
  rewrite Ht in Hshape. destruct Hshape as [-> Htr].
  cbv zeta. repeat split.
  - exact Htr.
  - rewrite Htr. apply banners_timeout_trace.
  - rewrite Htr. apply dispatched_timeout_trace.
  - intros Hclr s. rewrite Hnet, Hclr. apply set_deadline_lookup.
Qed.

(** C2. Off the timeout path, a snippet whose upper-case form is one of
    the five strings of four characters goes to the HTTP handler, which
    gets the wrapped connection that the probe returned, and whose
    result is returned. *)
Theorem http_signature_dispatches_http :
  is_timeout err = false ->
  strings.ToUpper U (string_of_list_byte snip)
    ∈ ["GET "; "POST"; "HEAD"; "OPTI"; "CONN"] ->
  dispatched (trace st) = [(HTTP, bufConn)]
  /\ last (trace st) = Some (EvTCP HTTP ctx bufConn md log h result)
  /\ result = tcp_result e HTTP ctx bufConn md log h.
Proof.
  intros Ht Hkey.
  destruct (handler_tcp_inv U log h ctx conn md e n _ _ _ _ _ Hrun Hprobe)
    as (n2 & _ & _ & Hshape).
  rewrite Ht in Hshape. destruct Hshape as [-> Htr].
  apply http_ok_spec in Hkey.
  assert (Hsig : signature U snip = HTTP) by (unfold signature; by rewrite Hkey).
  rewrite Htr, dispatched_signature_trace, Hsig. repeat split.
  unfold signature_trace. rewrite !app_assoc, last_snoc. by rewrite Hsig.
Qed.

(** C3. Off the timeout path the handler is chosen by the HTTP check
    first and the RDP check second: a snippet that passes the HTTP check
    goes to the HTTP handler whatever the RDP check says, and a snippet
    that fails it and is byte for byte 03 00 00 2B goes to the RDP
    handler, with the wrapped connection. *)
Theorem http_check_precedes_rdp_check :
  is_timeout err = false ->
  dispatched (trace st)
    = [(if http_ok U snip then HTTP else if rdp_ok snip then RDP else TCP,
        bufConn)]
  /\ (http_ok U snip = true -> dispatched (trace st) = [(HTTP, bufConn)])
  /\ (http_ok U snip = false -> snip = [x03; x00; x00; x2b] ->
      dispatched (trace st) = [(RDP, bufConn)]
      /\ result = tcp_result e RDP ctx bufConn md log h).
Proof.
  intros Ht.
  destruct (handler_tcp_inv U log h ctx conn md e n _ _ _ _ _ Hrun Hprobe)
    as (n2 & _ & _ & Hshape).
  rewrite Ht in Hshape. destruct Hshape as [-> Htr].
  rewrite Htr, dispatched_signature_trace. unfold signature.
  split; [reflexivity|]. split.
  - by intros ->.
  - intros -> Hrdp. apply (rdp_ok_spec snip) in Hrdp. by rewrite Hrdp.
Qed.

(** C4. When the probe returns four bytes that pass neither check, the
    raw TCP handler is called with the wrapped connection, and the next
    four bytes to be read from that connection are the snippet: it shows
    the whole stream as it was before the probe. *)
Theorem unmatched_four_bytes_fall_back :
  conn_wf conn ->
  length snip = 4 ->
  strings.ToUpper U (string_of_list_byte snip)
    ∉ ["GET "; "POST"; "HEAD"; "OPTI"; "CONN"] ->
  snip <> [x03; x00; x00; x2b] ->
  err = None
  /\ dispatched (trace st) = [(TCP, bufConn)]
  /\ result = tcp_result e TCP ctx bufConn md log h
  /\ take 4 (conn_stream (net st) bufConn) = snip
  /\ conn_stream (net st) bufConn = conn_stream n conn.
Proof.
  intros Hwf Hlen Hhttp Hrdp.
  destruct (handler_tcp_inv U log h ctx conn md e n _ _ _ _ _ Hrun Hprobe)
    as (n2 & Hpeek & Hnet & Hshape).
  assert (Herr : err = None) by (by apply Peek_net_whole in Hpeek).
  subst err. change (is_timeout None) with false in Hshape.
  destruct Hshape as [-> Htr].
  assert (Hsig : signature U snip = TCP).
  { unfold signature.
    destruct (http_ok U snip) eqn:Hh; [by apply http_ok_spec in Hh|].
    destruct (rdp_ok snip) eqn:Hr; [by apply rdp_ok_spec in Hr|]. done. }
  destruct (Peek_net_replay _ _ _ _ _ _ _ Hwf Hpeek) as (_ & _ & Hreplay & Hall).
  rewrite conn_stream_deadline_set in Hall.
  rewrite Htr, dispatched_signature_trace, Hsig, Hnet, !conn_stream_deadline_set.
  repeat split; [|done].
  rewrite Hreplay, <- Hlen. apply take_app_length.
Qed.

(** C5. Off the timeout path the handler is given the wrapped connection
    of the probe. A read of as many bytes as the snippet has returns the
    snippet, byte for byte and without error; what is to be read from
    the wrapped connection is the snippet followed by what is still to
    be read from the connection underneath; together that is the stream
    as it was when the classifier was entered. *)
Theorem wrapped_connection_replays_snippet :
  conn_wf conn ->
  is_timeout err = false ->
  (exists f r, bufConn = BufferedConn r conn
               /\ dispatched (trace st) = [(f, bufConn)])
  /\ (conn_read (net st) bufConn (length snip)).1 = (snip, None)
  /\ conn_stream (net st) bufConn = snip ++ conn_stream (net st) conn
  /\ conn_stream (net st) bufConn = conn_stream n conn.
Proof.
  intros Hwf Ht.
  destruct (handler_tcp_inv U log h ctx conn md e n _ _ _ _ _ Hrun Hprobe)
    as (n2 & Hpeek & Hnet & Hshape).
  rewrite Ht in Hshape. destruct Hshape as [_ Htr].
  destruct (Peek_net_replay _ _ _ _ _ _ _ Hwf Hpeek)
    as (_ & _ & Hreplay & Hall).
  destruct (Peek_net_reader _ _ _ _ _ _ _ Hpeek) as (r & Hr & Hbuf).
  rewrite conn_stream_deadline_set in Hall.
  rewrite Hnet, !conn_stream_deadline_set.
  split; [|split; [|done]].
  - exists (signature U snip), r. split; [done|].
    rewrite Htr. apply dispatched_signature_trace.
  - pose proof (conn_read_buffer
                  (deadline_set (deadline_fault e conn time.zero) n2 conn time.zero)
                  r conn) as Hread.
    by rewrite reader_buf_deadline_set, Hbuf, <- Hr in Hread.
Qed.

(** C6. When the probe fails with an error that is no network timeout,
    the run is: arm, probe, clear the deadline, log the error of the
    probe at debug level, call the handler that the two checks choose for
    the snippet as it is, with the wrapped connection. No banner is
    sent, and the result is the one of that handler. *)
Theorem peek_error_is_logged_and_classified (perr : error) :
  err = Some perr ->
  is_timeout err = false ->
  let armed := deadline_fault e conn (time.Add (clock e) (500 * time.Millisecond)%Z) in
  let cleared := deadline_fault e conn time.zero in
  let f := if http_ok U snip then HTTP else if rdp_ok snip then RDP else TCP in
  trace st =
    [EvSetReadDeadline conn (time.Add (clock e) (500 * time.Millisecond)%Z) armed]
    ++ logged log "failed to set read deadline" armed
    ++ [EvPeek conn 4 snip bufConn (Some perr)]
    ++ [EvSetReadDeadline conn time.zero cleared]
    ++ logged log "failed to reset read deadline" cleared
    ++ [EvLog LevelDebug log "failed to peek connection" perr]
    ++ [EvTCP f ctx bufConn md log h result]
  /\ banners (trace st) = []
  /\ dispatched (trace st) = [(f, bufConn)]
  /\ result = tcp_result e f ctx bufConn md log h
  /\ (cleared = None ->
      forall s, socks (net st) !! conn_fd conn = Some s -> deadline s = time.zero).
Proof.
  intros Herr Ht.
  destruct (handler_tcp_inv U log h ctx conn md e n _ _ _ _ _ Hrun Hprobe)
    as (n2 & _ & Hnet & Hshape).
  rewrite Ht in Hshape. destruct Hshape as [-> Htr].
  cbv zeta. fold (signature U snip). repeat split.
  - rewrite Htr. unfold signature_trace. by rewrite Herr.
  - rewrite Htr. apply banners_signature_trace.
  - rewrite Htr. apply dispatched_signature_trace.
  - intros Hclr s. rewrite Hnet, Hclr. apply set_deadline_lookup.
Qed.

(** C9. Off the timeout path a snippet of fewer than four bytes passes
    neither check, and the raw TCP handler is called with the wrapped
    connection. *)
Theorem short_snippet_falls_back :
  is_timeout err = false ->
  length snip < 4 ->
  http_ok U snip = false
  /\ rdp_ok snip = false
  /\ dispatched (trace st) = [(TCP, bufConn)]
  /\ result = tcp_result e TCP ctx bufConn md log h.
Proof.
  intros Ht Hlen.
  destruct (handler_tcp_inv U log h ctx conn md e n _ _ _ _ _ Hrun Hprobe)
    as (n2 & _ & _ & Hshape).
  rewrite Ht in Hshape. destruct Hshape as [-> Htr].
  assert (Hh : http_ok U snip = false).
  { destruct (http_ok U snip) eqn:Hh; [|done].
    apply http_ok_length in Hh. lia. }
  assert (Hr : rdp_ok snip = false).
  { destruct (rdp_ok snip) eqn:Hr; [|done].
    apply rdp_ok_spec in Hr. subst snip. cbn in Hlen. lia. }
  rewrite Htr, dispatched_signature_trace. unfold signature. by rewrite Hh, Hr.
Qed.

(** C10. The entry ["rdp"] of the registry and the RDP branch of the
    classifier call the same handler with the same logger and honeypot:
    on the arguments that the branch passes, the entry makes the same
    call and returns the same result. *)
Theorem rdp_entry_agrees_with_rdp_branch :
  is_timeout err = false ->
  snip = [x03; x00; x00; x2b] ->
  exists entry,
    MapTCPProtocolHandlers U log h !! "rdp" = Some entry
    /\ (forall ctx' c md', entry ctx' c md' = tcp.HandleRDP ctx' c md' log h)
    /\ last (trace st) = Some (EvTCP RDP ctx bufConn md log h result)
    /\ forall n',
         run (entry ctx bufConn md) e n'
         = (result, {| net := n';
                       trace := [EvTCP RDP ctx bufConn md log h result] |}).
Proof.
  intros Ht Hsnip.
  destruct (handler_tcp_inv U log h ctx conn md e n _ _ _ _ _ Hrun Hprobe)
    as (n2 & _ & _ & Hshape).
  rewrite Ht in Hshape. destruct Hshape as [-> Htr].
  assert (Hsig : signature U snip = RDP).
  { subst snip. unfold signature. by rewrite rdp_header_not_http. }
  rewrite Hsig in *.
  exists (fun ctx' c md' => tcp.HandleRDP ctx' c md' log h).
  repeat split.
  rewrite Htr. unfold signature_trace. rewrite !app_assoc, last_snoc.
  by rewrite Hsig.
Qed.

End Claims.

(** C7. Whatever fails on the way (arming or clearing the deadline,
    sending the banner, the probe), every run ends with the call of one
    handler, no other handler is called, and the result of the run is the
    result of that call. *)
Theorem classifier_returns_result_of_its_handler
    U log h ctx conn md e n result st :
  run (handler_tcp U log h ctx conn md) e n = (result, st) ->
  exists f c before,
    trace st = before ++ [EvTCP f ctx c md log h result]
    /\ dispatched (trace st) = [(f, c)]
    /\ result = tcp_result e f ctx c md log h.
Proof.
  intros Hrun.
  destruct (Peek_net (deadline_set (deadline_fault e conn (probe_deadline e)) n conn
                                   (probe_deadline e)) conn 4)
    as [[[snip0 bufConn0] err0] n2] eqn:Hpeek.
  rewrite (handler_tcp_run U log h ctx conn md e n _ _ _ _ Hpeek) in Hrun.
  destruct (is_timeout err0); injection Hrun as <- <-; cbn [trace].
  - exists TCP, conn. eexists. split; [|split; [apply dispatched_timeout_trace | done]].
    unfold timeout_trace. rewrite !app_assoc. reflexivity.
  - exists (signature U snip0), bufConn0. eexists.
    split; [|split; [apply dispatched_signature_trace | done]].
    unfold signature_trace. rewrite !app_assoc. reflexivity.
Qed.

(** The classifier is what the registry holds under ["tcp"]. *)
Lemma tcp_entry_is_classifier U log h :
  MapTCPProtocolHandlers U log h !! "tcp" = Some (handler_tcp U log h).
Proof. unfold MapTCPProtocolHandlers. apply lookup_insert_eq. Qed.

(** C8. For every logger and honeypot the stream registry has the
    thirteen keys smtp, rdp, smb, ftp, sip, rfb, telnet, mqtt,
    bittorrent, memcache, jabber, adb and tcp and no other, and the
    datagram registry has the key udp and no other. Both are total
    functions of their arguments. *)
Theorem registries_have_exactly_the_documented_keys U log h :
  dom (MapTCPProtocolHandlers U log h)
    = ({[ "smtp"; "rdp"; "smb"; "ftp"; "sip"; "rfb"; "telnet"; "mqtt";
          "bittorrent"; "memcache"; "jabber"; "adb"; "tcp" ]} : gset string)
  /\ size (MapTCPProtocolHandlers U log h) = 13
  /\ dom (MapUDPProtocolHandlers log h) = ({[ "udp" ]} : gset string)
  /\ size (MapUDPProtocolHandlers log h) = 1.
Proof.
  split; [|split; [|split]].
  - unfold MapTCPProtocolHandlers. cbv zeta.
    rewrite !dom_insert_L, dom_empty_L. set_solver.
  - reflexivity.
  - unfold MapUDPProtocolHandlers. cbv zeta.
    rewrite !dom_insert_L, dom_empty_L. set_solver.
  - reflexivity.
Qed.

(** ** The theorems at sample inputs *)

(** A client that stays silent: the banner for port 2222 goes out and
    the raw TCP handler gets the connection itself. *)
Lemma timeout_sends_banner_then_raw_tcp_witness :
  let r := Demo.classify Demo.env Demo.silent in
  banners (trace r.2) = [2222%Z]
  /\ dispatched (trace r.2) = [(TCP, Demo.conn)]
  /\ r.1 = Some (ErrorString "tcp").
Proof.
  cbv zeta.
  destruct (timeout_sends_banner_then_raw_tcp
              Demo.upper Demo.log Demo.h Demo.ctx Demo.conn Demo.md
              Demo.env Demo.silent
              (Demo.classify Demo.env Demo.silent).1
              (Demo.classify Demo.env Demo.silent).2
              [] Demo.wrapped (Some (NetError "i/o timeout" true)))
    as (_ & Hb & Hd & Hr & _).
  - vm_compute. reflexivity.
  - vm_compute. repeat constructor.
  - reflexivity.
  - auto.
Defined.

(** A request line in lower case. *)
Lemma http_signature_dispatches_http_witness :
  let r := Demo.classify Demo.env (Demo.world "get / HTTP/1.1" EndEOF) in
  dispatched (trace r.2) = [(HTTP, Demo.wrapped)]
  /\ r.1 = Some (ErrorString "http").
Proof.
  cbv zeta.
  destruct (http_signature_dispatches_http
              Demo.upper Demo.log Demo.h Demo.ctx Demo.conn Demo.md
              Demo.env (Demo.world "get / HTTP/1.1" EndEOF)
              (Demo.classify Demo.env (Demo.world "get / HTTP/1.1" EndEOF)).1
              (Demo.classify Demo.env (Demo.world "get / HTTP/1.1" EndEOF)).2
              (list_byte_of_string "get ") Demo.wrapped None)
    as (Hd & _ & Hr).
  - vm_compute. reflexivity.
  - vm_compute. repeat constructor.
  - reflexivity.
  - vm_compute. repeat constructor.
  - auto.
Defined.

(** The RDP connection request. *)
Lemma http_check_precedes_rdp_check_witness :
  dispatched (trace (Demo.classify Demo.env Demo.rdp_world).2) = [(RDP, Demo.wrapped)].
Proof.
  destruct (http_check_precedes_rdp_check
              Demo.upper Demo.log Demo.h Demo.ctx Demo.conn Demo.md
              Demo.env Demo.rdp_world
              (Demo.classify Demo.env Demo.rdp_world).1
              (Demo.classify Demo.env Demo.rdp_world).2
              rdp_header Demo.wrapped None)
    as (_ & _ & Hrdp).
  - vm_compute. reflexivity.
  - vm_compute. repeat constructor.
  - reflexivity.
  - apply Hrdp; reflexivity.
Defined.

(** Four bytes of no known protocol, with more to follow. *)
Lemma unmatched_four_bytes_fall_back_witness :
  let r := Demo.classify Demo.env (Demo.world "XYZ!more" EndEOF) in
  dispatched (trace r.2) = [(TCP, Demo.wrapped)]
  /\ conn_stream (net r.2) Demo.wrapped = list_byte_of_string "XYZ!more".
Proof.
  cbv zeta.
  destruct (unmatched_four_bytes_fall_back
              Demo.upper Demo.log Demo.h Demo.ctx Demo.conn Demo.md
              Demo.env (Demo.world "XYZ!more" EndEOF)
              (Demo.classify Demo.env (Demo.world "XYZ!more" EndEOF)).1
              (Demo.classify Demo.env (Demo.world "XYZ!more" EndEOF)).2
              (list_byte_of_string "XYZ!") Demo.wrapped None)
    as (_ & Hd & _ & _ & Hs).
  - vm_compute. reflexivity.
  - vm_compute. repeat constructor.
  - vm_compute. repeat constructor.
  - reflexivity.
  - apply (bool_decide_unpack _). vm_compute. exact I.
  - vm_compute. discriminate.
  - auto.
Defined.

(** The handler of a request reads the request from its first byte. *)
Lemma wrapped_connection_replays_snippet_witness :
  let n := Demo.world "GET / HTTP/1.1" EndEOF in
  conn_stream (net (Demo.classify Demo.env n).2) Demo.wrapped
  = list_byte_of_string "GET / HTTP/1.1".
Proof.
  cbv zeta.
  destruct (wrapped_connection_replays_snippet
              Demo.upper Demo.log Demo.h Demo.ctx Demo.conn Demo.md
              Demo.env (Demo.world "GET / HTTP/1.1" EndEOF)
              (Demo.classify Demo.env (Demo.world "GET / HTTP/1.1" EndEOF)).1
              (Demo.classify Demo.env (Demo.world "GET / HTTP/1.1" EndEOF)).2
              (list_byte_of_string "GET ") Demo.wrapped None)
    as (_ & _ & _ & Hs).
  - vm_compute. reflexivity.
  - vm_compute. repeat constructor.
  - vm_compute. repeat constructor.
  - reflexivity.
  - exact Hs.
Defined.

(** A client that sends two bytes and closes. *)
Lemma peek_error_is_logged_and_classified_witness :
  let r := Demo.classify Demo.faulty (Demo.world "ge" EndEOF) in
  banners (trace r.2) = []
  /\ dispatched (trace r.2) = [(TCP, Demo.wrapped)]
  /\ EvLog LevelDebug Demo.log "failed to peek connection" EOF ∈ trace r.2.
Proof.
  cbv zeta.
  destruct (fun Hrun Hprobe =>
              peek_error_is_logged_and_classified
                Demo.upper Demo.log Demo.h Demo.ctx Demo.conn Demo.md
                Demo.faulty (Demo.world "ge" EndEOF)
                (Demo.classify Demo.faulty (Demo.world "ge" EndEOF)).1
                (Demo.classify Demo.faulty (Demo.world "ge" EndEOF)).2
                (list_byte_of_string "ge") Demo.wrapped (Some EOF)
                Hrun Hprobe EOF eq_refl eq_refl)
    as (Htr & Hb & Hd & _).
  - vm_compute. reflexivity.
  - vm_compute. repeat constructor.
  - split; [exact Hb | split; [exact Hd |]].
    rewrite Htr. vm_compute. repeat constructor.
Defined.

(** A run in which every collaborator fails. *)
Lemma classifier_returns_result_of_its_handler_witness :
  exists f c before,
    trace (Demo.classify Demo.faulty Demo.rdp_world).2
      = before ++ [EvTCP f Demo.ctx c Demo.md Demo.log Demo.h
                         (Some (ErrorString "rdp"))]
    /\ dispatched (trace (Demo.classify Demo.faulty Demo.rdp_world).2) = [(f, c)].
Proof.
  destruct (classifier_returns_result_of_its_handler
              Demo.upper Demo.log Demo.h Demo.ctx Demo.conn Demo.md
              Demo.faulty Demo.rdp_world
              (Demo.classify Demo.faulty Demo.rdp_world).1
              (Demo.classify Demo.faulty Demo.rdp_world).2)
    as (f & c & before & Htr & Hd & _).
  - vm_compute. reflexivity.
  - exists f, c, before. split; [exact Htr | exact Hd].
Defined.

(** A reset after three bytes of a request. *)
Lemma short_snippet_falls_back_witness :
  let r := Demo.classify Demo.env (Demo.world "GET" EndReset) in
  dispatched (trace r.2) = [(TCP, Demo.wrapped)]
  /\ r.1 = Some (ErrorString "tcp").
Proof.
  cbv zeta.
  destruct (short_snippet_falls_back
              Demo.upper Demo.log Demo.h Demo.ctx Demo.conn Demo.md
              Demo.env (Demo.world "GET" EndReset)
              (Demo.classify Demo.env (Demo.world "GET" EndReset)).1
              (Demo.classify Demo.env (Demo.world "GET" EndReset)).2
              (list_byte_of_string "GET") Demo.wrapped
              (Some (NetError "connection reset by peer" false)))
    as (_ & _ & Hd & Hr).
  - vm_compute. reflexivity.
  - vm_compute. repeat constructor.
  - reflexivity.
  - vm_compute. lia.
  - auto.
Defined.

(** The entry ["rdp"] on the wrapped connection of an RDP request. *)
Lemma rdp_entry_agrees_with_rdp_branch_witness :
  exists entry,
    MapTCPProtocolHandlers Demo.upper Demo.log Demo.h !! "rdp" = Some entry
    /\ (run (entry Demo.ctx Demo.wrapped Demo.md) Demo.env Demo.rdp_world).1
       = (Demo.classify Demo.env Demo.rdp_world).1.
Proof.
  destruct (rdp_entry_agrees_with_rdp_branch
              Demo.upper Demo.log Demo.h Demo.ctx Demo.conn Demo.md
              Demo.env Demo.rdp_world
              (Demo.classify Demo.env Demo.rdp_world).1
              (Demo.classify Demo.env Demo.rdp_world).2
              rdp_header Demo.wrapped None)
    as (entry & Hentry & _ & _ & Hsame).
  - vm_compute. reflexivity.
  - vm_compute. repeat constructor.
  - reflexivity.
  - reflexivity.
  - exists entry. split; [exact Hentry|]. by rewrite Hsame.
Defined.

(** * Further properties of the registries and the classifier *)

(** X1. Each of the twelve names of the stream registry other than
    ["tcp"] is bound to the handler of package [tcp] that the name
    stands for. A call of the entry is one call of that handler with the
    context, connection and metadata of the caller and the logger and
    honeypot of the factory; the connection is not touched and the
    result is the one of the handler. *)
Theorem named_entry_calls_its_handler U log h k p :
  (k, p) ∈ named_handlers ->
  exists entry,
    MapTCPProtocolHandlers U log h !! k = Some entry
    /\ forall ctx c md e n,
         run (entry ctx c md) e n
         = (tcp_result e p ctx c md log h,
            {| net := n;
               trace := [EvTCP p ctx c md log h
                               (tcp_result e p ctx c md log h)] |}).
Proof.
  unfold named_handlers. intros Hin.
  repeat (apply elem_of_cons in Hin as [[= -> ->]|Hin];
          [eexists; split; [reflexivity | reflexivity] |]).
  by apply not_elem_of_nil in Hin.
Qed.

(** X2. The datagram registry answers to the name ["udp"] and to no
    other. A call of its entry is one call of [udp.HandleUDP] with the
    context, addresses (nil or not), payload and metadata of the caller
    and the logger and honeypot of the factory, and returns its result. *)
Theorem udp_entry_passes_the_datagram_on log h :
  (forall k, is_Some (MapUDPProtocolHandlers log h !! k) <-> k = "udp")
  /\ exists entry,
       MapUDPProtocolHandlers log h !! "udp" = Some entry
       /\ forall ctx srcAddr dstAddr data md e n,
            run (entry ctx srcAddr dstAddr data md) e n
            = (udp_result e ctx srcAddr dstAddr data md log h,
               {| net := n;
                  trace := [EvUDP ctx srcAddr dstAddr data md log h
                                  (udp_result e ctx srcAddr dstAddr data md log h)] |}).
Proof.
  split.
  - intros k. unfold MapUDPProtocolHandlers. cbv zeta.
    rewrite lookup_insert_is_Some, lookup_empty. split.
    + intros [->|[_ [? [=]]]]. done.
    + intros ->. by left.
  - eexists. split; reflexivity.
Qed.

Section MoreTraceFacts.
Variable U : Z -> Z.
Variables (log : Logger) (h : Honeypot) (ctx : Context) (conn : Conn) (md : Metadata).
Variable e : Env.

Lemma io_calls_timeout_trace snip bufConn err :
  io_calls (timeout_trace log h ctx conn md e snip bufConn err)
  = [EvSetReadDeadline conn (probe_deadline e)
                       (deadline_fault e conn (probe_deadline e));
     EvPeek conn 4 snip bufConn err;
     EvSetReadDeadline conn time.zero (deadline_fault e conn time.zero)].
Proof.
  unfold timeout_trace, arm_trace, clear_trace.
  destruct (deadline_fault e conn (probe_deadline e)),
    (deadline_fault e conn time.zero),
    (banner_result e (TargetPort md) conn md log h); reflexivity.
Qed.

Lemma io_calls_signature_trace snip bufConn err :
  io_calls (signature_trace U log h ctx conn md e snip bufConn err)
  = [EvSetReadDeadline conn (probe_deadline e)
                       (deadline_fault e conn (probe_deadline e));
     EvPeek conn 4 snip bufConn err;
     EvSetReadDeadline conn time.zero (deadline_fault e conn time.zero)].
Proof.
  unfold signature_trace, arm_trace, clear_trace.
  destruct (deadline_fault e conn (probe_deadline e)),
    (deadline_fault e conn time.zero), err; reflexivity.
Qed.

Lemma logs_timeout_trace snip bufConn err :
  logs (timeout_trace log h ctx conn md e snip bufConn err)
  = failure_log "failed to set read deadline"
                (deadline_fault e conn (probe_deadline e))
    ++ failure_log "Failed to send service banner"
                   (banner_result e (TargetPort md) conn md log h)
    ++ failure_log "failed to reset read deadline"
                   (deadline_fault e conn time.zero).
Proof.
  unfold timeout_trace, arm_trace, clear_trace.
  destruct (deadline_fault e conn (probe_deadline e)),
    (deadline_fault e conn time.zero),
    (banner_result e (TargetPort md) conn md log h); reflexivity.
Qed.

Lemma logs_signature_trace snip bufConn err :
  logs (signature_trace U log h ctx conn md e snip bufConn err)
  = failure_log "failed to set read deadline"
                (deadline_fault e conn (probe_deadline e))
    ++ failure_log "failed to reset read deadline"
                   (deadline_fault e conn time.zero)
    ++ match err with
       | Some perr => [(LevelDebug, "failed to peek connection"%string, perr)]
       | None => []
       end.
Proof.
  unfold signature_trace, arm_trace, clear_trace.
  destruct (deadline_fault e conn (probe_deadline e)),
    (deadline_fault e conn time.zero), err; reflexivity.
Qed.

(** Every run has one of the two shapes. *)
Lemma handler_tcp_shape (n : Net) result st :
  run (handler_tcp U log h ctx conn md) e n = (result, st) ->
  exists snip bufConn err n2,
    Peek_net (deadline_set (deadline_fault e conn (probe_deadline e)) n conn
                           (probe_deadline e)) conn 4 = (snip, bufConn, err, n2)
    /\ net st = deadline_set (deadline_fault e conn time.zero) n2 conn time.zero
    /\ EvPeek conn 4 snip bufConn err ∈ trace st
    /\ if is_timeout err then
         result = tcp_result e TCP ctx conn md log h
         /\ trace st = timeout_trace log h ctx conn md e snip bufConn err
       else
         result = tcp_result e (signature U snip) ctx bufConn md log h
         /\ trace st = signature_trace U log h ctx conn md e snip bufConn err.
Proof.
  intros Hrun.
  destruct (Peek_net (deadline_set (deadline_fault e conn (probe_deadline e)) n conn
                                   (probe_deadline e)) conn 4)
    as [[[snip bufConn] err] n2] eqn:Hpeek.
  rewrite (handler_tcp_run U log h ctx conn md e n _ _ _ _ Hpeek) in Hrun.
  exists snip, bufConn, err, n2. split; [done|].
  destruct (is_timeout err); injection Hrun as <- <-; cbn [trace net].
  - repeat split. unfold timeout_trace. set_solver.
  - repeat split. unfold signature_trace. set_solver.
Qed.
End MoreTraceFacts.

Lemma conn_read_sockets c : forall n k bs err n' fd,
  conn_read n c k = (bs, err, n') ->
  (fun s => (ending s, deadline s)) <$> socks n' !! fd
  = (fun s => (ending s, deadline s)) <$> socks n !! fd.
Proof.
  induction c as [fd0|r c IH]; intros n k bs err n' fd Hread; cbn in Hread.
  - destruct (socks n !! fd0) as [s|] eqn:Hs; [|by injection Hread as <- <- <-].
    destruct (k <=? length (pending s)); injection Hread as <- <- <-; cbn;
      (destruct (decide (fd0 = fd)) as [<-|Hne];
       [rewrite lookup_insert_eq, Hs; reflexivity
       | by rewrite lookup_insert_ne]).
  - destruct (k <=? length (reader_buf n r)).
    + by injection Hread as <- <- <-.
    + destruct (conn_read (put_reader n r []) c (k - length (reader_buf n r)))
        as [[bs0 err0] n0] eqn:Hrec.
      injection Hread as <- <- <-. by rewrite (IH _ _ _ _ _ fd Hrec).
Qed.

Lemma Peek_net_sockets n c w snip bufConn err n' fd :
  Peek_net n c w = (snip, bufConn, err, n') ->
  (fun s => (ending s, deadline s)) <$> socks n' !! fd
  = (fun s => (ending s, deadline s)) <$> socks n !! fd.
Proof.
  unfold Peek_net. destruct (conn_read n c w) as [[bs err0] n1] eqn:Hread.
  intros [= <- <- <- <-]. cbn. by apply conn_read_sockets with c w bs err0.
Qed.

Lemma deadline_set_lookup res n c t :
  socks (deadline_set res n c t) !! conn_fd c
  = (fun s => match res with
              | None => with_deadline s t
              | Some _ => s
              end) <$> socks n !! conn_fd c.
Proof.
  destruct res; cbn.
  - by destruct (socks n !! conn_fd c).
  - by rewrite lookup_alter_eq.
Qed.

Section MoreClaims.
Variable U : Z -> Z.
Variables (log : Logger) (h : Honeypot) (ctx : Context) (conn : Conn) (md : Metadata).
Variables (e : Env) (n : Net).
Variables (result : option error) (st : State).

(** X3. In every run of the classifier the calls on the connection are
    three, in this order: [SetReadDeadline] with the clock plus 500 ms,
    one [Peek] of width 4, [SetReadDeadline] with the zero time. This
    holds on every path, also when a deadline call fails. *)
Theorem deadline_brackets_the_probe :
  run (handler_tcp U log h ctx conn md) e n = (result, st) ->
  exists snip bufConn err,
    io_calls (trace st)
    = [EvSetReadDeadline conn (clock e + 500000000)%Z
                         (deadline_fault e conn (clock e + 500000000)%Z);
       EvPeek conn 4 snip bufConn err;
       EvSetReadDeadline conn time.zero (deadline_fault e conn time.zero)].
Proof.
  intros Hrun.
  destruct (handler_tcp_shape U log h ctx conn md e n _ _ Hrun)
    as (snip & bufConn & err & n2 & _ & _ & _ & Hshape).
  exists snip, bufConn, err.
  destruct (is_timeout err); destruct Hshape as [_ ->].
  - apply io_calls_timeout_trace.
  - apply io_calls_signature_trace.
Qed.

(** X4. The read deadline that the handler finds on the socket: none
    when clearing succeeded; the deadline of the probe when clearing
    failed after arming succeeded; the deadline the socket came with when
    both calls failed. *)
Theorem deadline_when_the_handler_starts (s0 : Socket) :
  run (handler_tcp U log h ctx conn md) e n = (result, st) ->
  socks n !! conn_fd conn = Some s0 ->
  exists s,
    socks (net st) !! conn_fd conn = Some s
    /\ deadline s
       = match deadline_fault e conn time.zero with
         | None => time.zero
         | Some _ =>
           match deadline_fault e conn (clock e + 500000000)%Z with
           | None => (clock e + 500000000)%Z
           | Some _ => deadline s0
           end
         end.
Proof.
  intros Hrun Hs0.
  destruct (handler_tcp_shape U log h ctx conn md e n _ _ Hrun)
    as (snip & bufConn & err & n2 & Hpeek & Hnet & _).
  pose proof (Peek_net_sockets _ _ _ _ _ _ _ (conn_fd conn) Hpeek) as Hsock.
  rewrite deadline_set_lookup, Hs0 in Hsock. cbn in Hsock.
  rewrite Hnet, deadline_set_lookup.
  destruct (socks n2 !! conn_fd conn) as [s2|]; [|discriminate].
  cbn in Hsock. injection Hsock as _ Hd.
  eexists. split; [reflexivity|].
  change (clock e + 500000000)%Z with (probe_deadline e).
  destruct (deadline_fault e conn time.zero); cbn; [|reflexivity].
  rewrite Hd. by destruct (deadline_fault e conn (probe_deadline e)).
Qed.
End MoreClaims.

Section ProbeClaims.
Variable U : Z -> Z.
Variables (log : Logger) (h : Honeypot) (ctx : Context) (conn : Conn) (md : Metadata).
Variables (e : Env) (n : Net).
Variables (result : option error) (st : State).
Variables (snip : list byte) (bufConn : Conn) (err : option error).

Hypothesis Hrun : run (handler_tcp U log h ctx conn md) e n = (result, st).
Hypothesis Hprobe : EvPeek conn 4 snip bufConn err ∈ trace st.

(** X5. The banner is sent in exactly the runs whose probe timed out,
    once and for the target port; in those runs the raw TCP handler gets
    the connection itself, in all others the handler chosen by the two
    checks gets the wrapped connection. *)
Theorem banner_exactly_on_timeout :
  banners (trace st) = (if is_timeout err then [TargetPort md] else [])
  /\ dispatched (trace st)
     = (if is_timeout err then [(TCP, conn)]
        else [(if http_ok U snip then HTTP
               else if rdp_ok snip then RDP else TCP, bufConn)]).
Proof.
  destruct (handler_tcp_inv U log h ctx conn md e n _ _ _ _ _ Hrun Hprobe)
    as (n2 & _ & _ & Hshape).
  destruct (is_timeout err); destruct Hshape as [_ ->].
  - by rewrite banners_timeout_trace, dispatched_timeout_trace.
  - by rewrite banners_signature_trace, dispatched_signature_trace.
Qed.

(** X6. What a run logs: an error entry for each failed call of
    [SetReadDeadline] and of [SendBanner], and a debug entry for the
    error of a probe that did not time out. The timeout of a probe is
    itself never logged. *)
Theorem log_entries_of_a_run :
  logs (trace st)
  = failure_log "failed to set read deadline"
                (deadline_fault e conn (clock e + 500000000)%Z)
    ++ (if is_timeout err
        then failure_log "Failed to send service banner"
                         (banner_result e (TargetPort md) conn md log h)
        else [])
    ++ failure_log "failed to reset read deadline"
                   (deadline_fault e conn time.zero)
    ++ (if is_timeout err then []
        else match err with
             | Some perr => [(LevelDebug, "failed to peek connection"%string, perr)]
             | None => []
             end).
Proof.
  destruct (handler_tcp_inv U log h ctx conn md e n _ _ _ _ _ Hrun Hprobe)
    as (n2 & _ & _ & Hshape).
  change (clock e + 500000000)%Z with (probe_deadline e).
  destruct (is_timeout err); destruct Hshape as [_ ->].
  - rewrite logs_timeout_trace. by rewrite app_nil_r.
  - by rewrite logs_signature_trace.
Qed.

(** X7. When the probe returns no error the run is: arm, probe, clear,
    call the handler chosen by the two checks with the wrapped
    connection. No banner is sent, and nothing is logged unless a
    deadline call fails. *)
Theorem successful_probe_is_classified_quietly :
  err = None ->
  let armed := deadline_fault e conn (clock e + 500000000)%Z in
  let cleared := deadline_fault e conn time.zero in
  let f := if http_ok U snip then HTTP else if rdp_ok snip then RDP else TCP in
  trace st =
    [EvSetReadDeadline conn (clock e + 500000000)%Z armed]
    ++ logged log "failed to set read deadline" armed
    ++ [EvPeek conn 4 snip bufConn None]
    ++ [EvSetReadDeadline conn time.zero cleared]
    ++ logged log "failed to reset read deadline" cleared
    ++ [EvTCP f ctx bufConn md log h result]
  /\ result = tcp_result e f ctx bufConn md log h
  /\ (armed = None -> cleared = None -> logs (trace st) = []).
Proof.
  intros Herr.
  destruct (handler_tcp_inv U log h ctx conn md e n _ _ _ _ _ Hrun Hprobe)
    as (n2 & _ & _ & Hshape).
  rewrite Herr in Hshape. change (is_timeout None) with false in Hshape.
  destruct Hshape as [Hres Htr]. cbv zeta. fold (signature U snip).
  change (clock e + 500000000)%Z with (probe_deadline e).
  split; [|split].
  - rewrite Htr, Hres. unfold signature_trace, arm_trace, clear_trace.
    cbn [peek_logged]. by rewrite <- !app_assoc.
  - exact Hres.
  - intros Ha Hc. rewrite Htr, logs_signature_trace, Ha, Hc. reflexivity.
Qed.

(** X8. Off the timeout path the snippet 03 00 00 2B always goes to the
    RDP handler: the HTTP check, which comes first in the code, never
    takes it. *)
Theorem rdp_header_reaches_the_rdp_handler :
  is_timeout err = false ->
  snip = [x03; x00; x00; x2b] ->
  dispatched (trace st) = [(RDP, bufConn)]
  /\ result = tcp_result e RDP ctx bufConn md log h
  /\ banners (trace st) = [].
Proof.
  intros Ht Hsnip.
  destruct (handler_tcp_inv U log h ctx conn md e n _ _ _ _ _ Hrun Hprobe)
    as (n2 & _ & _ & Hshape).
  rewrite Ht in Hshape. destruct Hshape as [-> ->].
  rewrite dispatched_signature_trace, banners_signature_trace.
  assert (Hsig : signature U snip = RDP).
  { subst snip. unfold signature. by rewrite rdp_header_not_http. }
  by rewrite Hsig.
Qed.

(** X12. On the timeout path the raw TCP handler gets the connection
    itself and not the wrapped one. With [Peek] as the spec describes
    it, bytes that arrived before the deadline are in the snippet and no
    longer on that connection: the snippet followed by what the
    connection still shows is the stream as it was. *)
Theorem timeout_hands_over_what_the_probe_left :
  conn_wf conn ->
  is_timeout err = true ->
  dispatched (trace st) = [(TCP, conn)]
  /\ snip ++ conn_stream (net st) conn = conn_stream n conn.
Proof.
  intros Hwf Ht.
  destruct (handler_tcp_inv U log h ctx conn md e n _ _ _ _ _ Hrun Hprobe)
    as (n2 & Hpeek & Hnet & Hshape).
  rewrite Ht in Hshape. destruct Hshape as [_ ->].
  split; [apply dispatched_timeout_trace|].
  destruct (Peek_net_replay _ _ _ _ _ _ _ Hwf Hpeek) as (_ & _ & Hreplay & Hall).
  rewrite conn_stream_deadline_set in Hall.
  rewrite Hnet, conn_stream_deadline_set. by rewrite <- Hreplay.
Qed.
End ProbeClaims.

(** X11. The classifier calls no handler but the HTTP, RDP and raw TCP
    ones, and gives it the connection it was called with or the wrapped
    connection of its probe; the connection itself goes to the raw TCP
    handler only. *)
Theorem classifier_calls_only_http_rdp_tcp
    U log h ctx conn md e n result st f c :
  run (handler_tcp U log h ctx conn md) e n = (result, st) ->
  (f, c) ∈ dispatched (trace st) ->
  f ∈ [HTTP; RDP; TCP]
  /\ (c = conn \/ exists snip err, EvPeek conn 4 snip c err ∈ trace st)
  /\ (c = conn -> f = TCP).
Proof.
  intros Hrun Hin.
  destruct (handler_tcp_shape U log h ctx conn md e n _ _ Hrun)
    as (snip & bufConn & err & n2 & Hpeek & _ & Hprobe & Hshape).
  destruct (Peek_net_reader _ _ _ _ _ _ _ Hpeek) as (r & Hr & _).
  destruct (is_timeout err); destruct Hshape as [_ Htr]; rewrite Htr in Hin.
  - rewrite dispatched_timeout_trace in Hin.
    apply list_elem_of_singleton in Hin as [= -> ->].
    split; [set_solver|]. split; [by left | done].
  - rewrite dispatched_signature_trace in Hin.
    apply list_elem_of_singleton in Hin as [= -> ->].
    split; [|split].
    + unfold signature. destruct (http_ok U snip), (rdp_ok snip); set_solver.
    + right. eauto.
    + intros Heq. exfalso. rewrite Hr in Heq. clear -Heq.
      induction conn as [fd|r' c' IH]; [discriminate|].
      injection Heq as -> Heq. by apply IH.
Qed.

Section MoreToUpperFacts.
Variable U : Z -> Z.

Lemma char_code c : strings.char (strings.code c) = c.
Proof.
  unfold strings.char, strings.code. by rewrite N2Z.id, ascii_N_embedding.
Qed.

Lemma of_codes_codes s : strings.of_codes (strings.codes s) = s.
Proof.
  unfold strings.of_codes, strings.codes. rewrite List.map_map.
  rewrite (List.map_ext _ (fun c => c) char_code), List.map_id.
  apply string_of_list_ascii_of_string.
Qed.

Lemma ascii_forallb s :
  Forall ascii_char (list_ascii_of_string s) ->
  forallb (fun c => (c <? utf8.RuneSelf)%Z) (strings.codes s) = true.
Proof.
  unfold strings.codes. induction 1 as [|c l Hc _ IH]; [reflexivity|].
  cbn. rewrite IH, andb_true_r. unfold ascii_char in Hc.
  apply Z.ltb_lt. exact Hc.
Qed.

Lemma no_lower_upper_id (bs : list Z) :
  existsb strings.is_lower bs = false -> List.map strings.upper_byte bs = bs.
Proof.
  induction bs as [|b bs IH]; [reflexivity|]. cbn.
  intros Hex. apply orb_false_iff in Hex as [Hb Hbs].
  rewrite (IH Hbs). unfold strings.upper_byte. by rewrite Hb.
Qed.

(** On ASCII bytes [strings.ToUpper] is the map of [upper_byte]. *)
Lemma ToUpper_ascii s :
  Forall ascii_char (list_ascii_of_string s) ->
  strings.ToUpper U s
  = strings.of_codes (List.map strings.upper_byte (strings.codes s)).
Proof.
  intros Hascii. unfold strings.ToUpper. rewrite (ascii_forallb _ Hascii).
  destruct (existsb strings.is_lower (strings.codes s)) eqn:Hlow; [reflexivity|].
  cbn. by rewrite (no_lower_upper_id _ Hlow), of_codes_codes.
Qed.

(** A string with a byte above ASCII has fewer runes than bytes, unless
    one of its runes is [RuneError]. *)
Lemma runes_strict_aux k : forall s, length s <= k ->
  Exists (fun b => ~ (b < 0x80)%Z) s ->
  utf8.RuneError ∉ utf8.runes s ->
  length (utf8.runes s) < length s.
Proof.
  induction k as [|k IH]; intros s Hlen Hex Hne.
  { destruct s; [by apply Exists_nil in Hex | cbn in Hlen; lia]. }
  destruct s as [|b0 t0]; [by apply Exists_nil in Hex|].
  cbn [length] in Hlen. cbn [utf8.runes] in *.
  pose proof (runes_length t0) as H0.
  unfold utf8.first in *.
  destruct (b0 <? 0x80)%Z eqn:Hb0.
  { apply Z.ltb_lt in Hb0. apply Exists_cons in Hex as [Hex|Hex]; [done|].
    apply not_elem_of_cons in Hne as [_ Hne]. cbn [length].
    specialize (IH t0 ltac:(lia) Hex Hne). lia. }
  clear Hex.
  assert (Herr : forall l, utf8.RuneError ∉ utf8.RuneError :: l -> False)
    by (intros l Hl; apply Hl; left).
  repeat match type of Hne with
         | context [if ?c then _ else _] => destruct c
         end;
    try (exfalso; by eapply Herr);
    repeat match type of Hne with
           | context [match ?l with [] => _ | _ :: _ => _ end] =>
             destruct l as [|? ?]
           | context [if ?c then _ else _] => destruct c
           end;
    try (exfalso; by eapply Herr);
    cbn [length] in *;
    match goal with
    | |- context [utf8.runes ?t] => pose proof (runes_length t); lia
    end.
Qed.

Lemma runes_strict s :
  Exists (fun b => ~ (b < 0x80)%Z) s ->
  utf8.RuneError ∉ utf8.runes s ->
  length (utf8.runes s) < length s.
Proof. by apply runes_strict_aux with (length s). Qed.
End MoreToUpperFacts.

Section HttpCheck.
Variable U : Z -> Z.

(** X9. On a snippet of ASCII bytes the HTTP check ignores case: it
    passes exactly when the snippet with its letters a-z turned into A-Z
    is one of the five keys. *)
Theorem http_check_ignores_ascii_case (snip : list byte) :
  Forall ascii_char (list_ascii_of_string (string_of_list_byte snip)) ->
  http_ok U snip = true
  <-> strings.of_codes
        (List.map strings.upper_byte (strings.codes (string_of_list_byte snip)))
      ∈ ["GET "; "POST"; "HEAD"; "OPTI"; "CONN"].
Proof.
  intros Hascii. rewrite http_ok_spec. by rewrite (ToUpper_ascii U _ Hascii).
Qed.

Lemma encode3_RuneError_high :
  Forall high_byte (utf8.AppendRune utf8.RuneError)
  /\ utf8.AppendRune utf8.RuneError <> [].
Proof.
  split; [|discriminate].
  destruct (AppendRune_shape utf8.RuneError) as [[_ H]|[_ H]]; [|done].
  unfold utf8.RuneError in H. lia.
Qed.

(** What [Map] writes is not ASCII when a rune of the input is
    [RuneError] and the mapping keeps it. *)
Lemma Map_RuneError (f : Z -> Z) (rs : list Z) :
  f utf8.RuneError = utf8.RuneError ->
  utf8.RuneError ∈ rs ->
  ~ Forall ascii_char
      (List.map strings.char
         (List.concat
            (List.map (fun c => let r := f c in
                                if (0 <=? r)%Z then utf8.AppendRune r else [])
                      rs))).
Proof.
  intros Hf Hin Hall. induction rs as [|c rs IH]; [by apply not_elem_of_nil in Hin|].
  cbn -[utf8.AppendRune] in Hall. rewrite List.map_app in Hall.
  apply Forall_app in Hall as [Hc Hrest].
  apply elem_of_cons in Hin as [<-|Hin]; [|by apply IH].
  rewrite Hf in Hc. change (0 <=? utf8.RuneError)%Z with true in Hc.
  destruct encode3_RuneError_high as [Hhigh Hne].
  destruct (utf8.AppendRune utf8.RuneError) as [|b bs]; [done|].
  apply Forall_cons in Hhigh as [Hb _]. cbn in Hc.
  apply Forall_cons in Hc as [Hc _]. by apply char_high in Hb.
Qed.

Lemma codes_not_ascii s :
  ~ Forall ascii_char (list_ascii_of_string s) ->
  Exists (fun b => ~ (b < 0x80)%Z) (strings.codes s)
  /\ forallb (fun c => (c <? utf8.RuneSelf)%Z) (strings.codes s) = false.
Proof.
  intros Hn. split.
  - unfold strings.codes. apply not_Forall_Exists in Hn; [|intros c; unfold ascii_char; apply _].
    induction Hn as [c l Hc|c l _ IH]; cbn; [by left | by right].
  - destruct (forallb _ _) eqn:Hall; [|done]. exfalso. apply Hn.
    unfold strings.codes in Hall. rewrite forallb_forall in Hall.
    apply Forall_forall. intros c Hc. unfold ascii_char.
    apply Z.ltb_lt, Hall, in_map. by apply list_elem_of_In.
Qed.

(** X10. A snippet of at most four bytes, which is what the probe
    returns, fails the HTTP check as soon as one of its bytes is above
    ASCII, given that the case tables keep U+FFFD as they do in Go. *)
Theorem http_check_rejects_bytes_above_ascii (snip : list byte) :
  U utf8.RuneError = utf8.RuneError ->
  length snip <= 4 ->
  ~ Forall ascii_char (list_ascii_of_string (string_of_list_byte snip)) ->
  http_ok U snip = false.
Proof.
  intros HU Hlen Hn.
  destruct (http_ok U snip) eqn:Hok; [|done]. exfalso.
  apply http_ok_spec, http_key_shape in Hok as [Hlen4 Hascii].
  apply codes_not_ascii in Hn as [Hex Hall].
  unfold strings.ToUpper in Hlen4, Hascii. rewrite Hall in Hlen4, Hascii.
  unfold strings.of_codes in Hascii at 1.
  rewrite list_ascii_of_string_of_list_ascii in Hascii.
  rewrite of_codes_length in Hlen4.
  assert (Hle : length (strings.Map (strings.unicode_ToUpper U)
                                    (strings.codes (string_of_list_byte snip)))
                <= length (utf8.runes (strings.codes (string_of_list_byte snip))))
    by exact (Map_ascii_length _ _ (Map_shape (strings.unicode_ToUpper U)) Hascii).
  rewrite Hlen4 in Hle.
  destruct (decide (utf8.RuneError
                    ∈ utf8.runes (strings.codes (string_of_list_byte snip))))
    as [Hin|Hnin].
  - revert Hascii. apply Map_RuneError; [|done].
    unfold strings.unicode_ToUpper. by rewrite HU.
  - apply runes_strict in Hnin; [|done].
    rewrite codes_length, string_of_list_byte_length in Hnin. lia.
Qed.
End HttpCheck.

(** X13. With [Peek] as the spec describes it: when four bytes or more
    are waiting on the connection, the handler is chosen by the first
    four of them whatever follows (end of stream, reset or silence), no
    banner is sent, and the wrapped connection shows the whole stream. *)
Theorem four_pending_bytes_decide U log h ctx conn md e n result st :
  conn_wf conn ->
  4 <= length (conn_stream n conn) ->
  run (handler_tcp U log h ctx conn md) e n = (result, st) ->
  let snip := take 4 (conn_stream n conn) in
  exists r,
    EvPeek conn 4 snip (BufferedConn r conn) None ∈ trace st
    /\ dispatched (trace st)
       = [(if http_ok U snip then HTTP else if rdp_ok snip then RDP else TCP,
           BufferedConn r conn)]
    /\ banners (trace st) = []
    /\ conn_stream (net st) (BufferedConn r conn) = conn_stream n conn.
Proof.
  intros Hwf Hlen Hrun snip.
  destruct (handler_tcp_shape U log h ctx conn md e n _ _ Hrun)
    as (snip0 & bufConn & err & n2 & Hpeek & Hnet & Hprobe & Hshape).
  destruct (Peek_net_reader _ _ _ _ _ _ _ Hpeek) as (r & -> & _).
  destruct (Peek_net_replay _ _ _ _ _ _ _ Hwf Hpeek) as (_ & _ & _ & Hall).
  apply Peek_net_full in Hpeek as [-> Hsnip]; [| done |];
    rewrite conn_stream_deadline_set in *; [|done].
  fold snip in Hsnip. subst snip0.
  change (is_timeout None) with false in Hshape. destruct Hshape as [_ Htr].
  exists r. split; [done|].
  rewrite Htr, dispatched_signature_trace, banners_signature_trace.
  repeat split. by rewrite Hnet, conn_stream_deadline_set.
Qed.

(** X14. Which handler is called, and with which connection, does not
    depend on the context, the metadata, the logger or the honeypot: two
    runs on the same connection in the same world agree on it. *)
Theorem handler_choice_ignores_metadata
    U log h ctx md log' h' ctx' md' conn e n :
  dispatched (trace (run (handler_tcp U log h ctx conn md) e n).2)
  = dispatched (trace (run (handler_tcp U log' h' ctx' conn md') e n).2).
Proof.
  destruct (run (handler_tcp U log h ctx conn md) e n) as [r1 st1] eqn:H1.
  destruct (run (handler_tcp U log' h' ctx' conn md') e n) as [r2 st2] eqn:H2.
  destruct (handler_tcp_shape U log h ctx conn md e n _ _ H1)
    as (snip & bufConn & err & n2 & Hpeek & _ & _ & Hshape).
  destruct (handler_tcp_shape U log' h' ctx' conn md' e n _ _ H2)
    as (snip' & bufConn' & err' & n2' & Hpeek' & _ & _ & Hshape').
  rewrite Hpeek in Hpeek'. injection Hpeek' as <- <- <- <-. cbn [snd].
  destruct (is_timeout err); destruct Hshape as [_ ->], Hshape' as [_ ->].
  - by rewrite !dispatched_timeout_trace.
  - by rewrite !dispatched_signature_trace.
Qed.

(** ** The further theorems at sample inputs *)

(** The entry of the file-sharing protocol. *)
Lemma named_entry_calls_its_handler_witness :
  exists entry,
    MapTCPProtocolHandlers Demo.upper Demo.log Demo.h !! "smb" = Some entry
    /\ (run (entry Demo.ctx Demo.conn Demo.md) Demo.env Demo.silent).1 = None.
Proof.
  destruct (named_entry_calls_its_handler Demo.upper Demo.log Demo.h "smb" SMB)
    as (entry & Hentry & Hrun).
  - vm_compute. repeat constructor.
  - exists entry. split; [exact Hentry|]. by rewrite Hrun.
Defined.

Lemma deadline_brackets_the_probe_witness :
  exists snip bufConn err,
    io_calls (trace (Demo.classify Demo.faulty Demo.rdp_world).2)
    = [EvSetReadDeadline Demo.conn 500001000%Z (Some (ErrorString "deadline"));
       EvPeek Demo.conn 4 snip bufConn err;
       EvSetReadDeadline Demo.conn time.zero (Some (ErrorString "deadline"))].
Proof.
  apply (deadline_brackets_the_probe
           Demo.upper Demo.log Demo.h Demo.ctx Demo.conn Demo.md
           Demo.faulty Demo.rdp_world
           (Demo.classify Demo.faulty Demo.rdp_world).1
           (Demo.classify Demo.faulty Demo.rdp_world).2).
  vm_compute. reflexivity.
Defined.

(** Arming works and clearing fails: the handler starts with the deadline
    of the probe. *)
Lemma deadline_when_the_handler_starts_witness :
  exists s,
    socks (net (Demo.classify Samples.sticky Demo.rdp_world).2) !! 0%nat = Some s
    /\ deadline s = 500001000%Z.
Proof.
  apply (deadline_when_the_handler_starts
           Demo.upper Demo.log Demo.h Demo.ctx Demo.conn Demo.md
           Samples.sticky Demo.rdp_world
           (Demo.classify Samples.sticky Demo.rdp_world).1
           (Demo.classify Samples.sticky Demo.rdp_world).2
           {| pending := rdp_header ++ [x00; x00]; ending := EndEOF;
              deadline := time.zero |}).
  - vm_compute. reflexivity.
  - vm_compute. reflexivity.
Defined.

Lemma banner_exactly_on_timeout_witness :
  banners (trace (Demo.classify Demo.env Demo.silent).2) = [2222%Z]
  /\ banners (trace (Demo.classify Demo.env Demo.rdp_world).2) = [].
Proof.
  split.
  - apply (banner_exactly_on_timeout
             Demo.upper Demo.log Demo.h Demo.ctx Demo.conn Demo.md
             Demo.env Demo.silent
             (Demo.classify Demo.env Demo.silent).1
             (Demo.classify Demo.env Demo.silent).2
             [] Demo.wrapped (Some (NetError "i/o timeout" true))).
    + vm_compute. reflexivity.
    + vm_compute. repeat constructor.
  - apply (banner_exactly_on_timeout
             Demo.upper Demo.log Demo.h Demo.ctx Demo.conn Demo.md
             Demo.env Demo.rdp_world
             (Demo.classify Demo.env Demo.rdp_world).1
             (Demo.classify Demo.env Demo.rdp_world).2
             rdp_header Demo.wrapped None).
    + vm_compute. reflexivity.
    + vm_compute. repeat constructor.
Defined.

(** A silent client with failing deadline calls and a failing banner
    sender: three entries, none for the timeout. *)
Lemma log_entries_of_a_run_witness :
  logs (trace (Demo.classify Demo.faulty Demo.silent).2)
  = [(LevelError, "failed to set read deadline", ErrorString "deadline");
     (LevelError, "Failed to send service banner", ErrorString "banner");
     (LevelError, "failed to reset read deadline", ErrorString "deadline")].
Proof.
  apply (log_entries_of_a_run
           Demo.upper Demo.log Demo.h Demo.ctx Demo.conn Demo.md
           Demo.faulty Demo.silent
           (Demo.classify Demo.faulty Demo.silent).1
           (Demo.classify Demo.faulty Demo.silent).2
           [] Demo.wrapped (Some (NetError "i/o timeout" true))).
  - vm_compute. reflexivity.
  - vm_compute. repeat constructor.
Defined.

Lemma successful_probe_is_classified_quietly_witness :
  logs (trace (Demo.classify Demo.env (Demo.world "HEAD / HTTP/1.0" EndEOF)).2) = [].
Proof.
  destruct (successful_probe_is_classified_quietly
              Demo.upper Demo.log Demo.h Demo.ctx Demo.conn Demo.md
              Demo.env (Demo.world "HEAD / HTTP/1.0" EndEOF)
              (Demo.classify Demo.env (Demo.world "HEAD / HTTP/1.0" EndEOF)).1
              (Demo.classify Demo.env (Demo.world "HEAD / HTTP/1.0" EndEOF)).2
              (list_byte_of_string "HEAD") Demo.wrapped None)
    as (_ & _ & Hquiet).
  - vm_compute. reflexivity.
  - vm_compute. repeat constructor.
  - reflexivity.
  - apply Hquiet; reflexivity.
Defined.

Lemma rdp_header_reaches_the_rdp_handler_witness :
  dispatched (trace (Demo.classify Demo.faulty Demo.rdp_world).2)
  = [(RDP, Demo.wrapped)].
Proof.
  destruct (rdp_header_reaches_the_rdp_handler
              Demo.upper Demo.log Demo.h Demo.ctx Demo.conn Demo.md
              Demo.faulty Demo.rdp_world
              (Demo.classify Demo.faulty Demo.rdp_world).1
              (Demo.classify Demo.faulty Demo.rdp_world).2
              rdp_header Demo.wrapped None)
    as (Hd & _).
  - vm_compute. reflexivity.
  - vm_compute. repeat constructor.
  - reflexivity.
  - reflexivity.
  - exact Hd.
Defined.

(** Two bytes and then silence: the raw TCP handler gets a connection
    that no longer shows them. *)
Lemma timeout_hands_over_what_the_probe_left_witness :
  let r := Demo.classify Demo.env (Demo.world "ge" EndTimeout) in
  dispatched (trace r.2) = [(TCP, Demo.conn)]
  /\ list_byte_of_string "ge" ++ conn_stream (net r.2) Demo.conn
     = list_byte_of_string "ge".
Proof.
  cbv zeta.
  apply (timeout_hands_over_what_the_probe_left
           Demo.upper Demo.log Demo.h Demo.ctx Demo.conn Demo.md
           Demo.env (Demo.world "ge" EndTimeout)
           (Demo.classify Demo.env (Demo.world "ge" EndTimeout)).1
           (Demo.classify Demo.env (Demo.world "ge" EndTimeout)).2
           (list_byte_of_string "ge") Demo.wrapped
           (Some (NetError "i/o timeout" true))).
  - vm_compute. reflexivity.
  - vm_compute. repeat constructor.
  - vm_compute. repeat constructor.
  - reflexivity.
Defined.

Lemma classifier_calls_only_http_rdp_tcp_witness :
  HTTP ∈ [HTTP; RDP; TCP]
  /\ (Demo.wrapped = Demo.conn
      \/ exists snip err,
           EvPeek Demo.conn 4 snip Demo.wrapped err
           ∈ trace (Demo.classify Demo.env
                                  (Demo.world "CONNECT example:443" EndEOF)).2)
  /\ (Demo.wrapped = Demo.conn -> HTTP = TCP).
Proof.
  apply (classifier_calls_only_http_rdp_tcp
           Demo.upper Demo.log Demo.h Demo.ctx Demo.conn Demo.md
           Demo.env (Demo.world "CONNECT example:443" EndEOF)
           (Demo.classify Demo.env (Demo.world "CONNECT example:443" EndEOF)).1
           (Demo.classify Demo.env (Demo.world "CONNECT example:443" EndEOF)).2
           HTTP Demo.wrapped).
  - vm_compute. reflexivity.
  - vm_compute. repeat constructor.
Defined.

Lemma http_check_ignores_ascii_case_witness :
  http_ok Demo.upper (list_byte_of_string "pOsT") = true.
Proof.
  apply (http_check_ignores_ascii_case Demo.upper (list_byte_of_string "pOsT")).
  - vm_compute. repeat constructor.
  - vm_compute. repeat constructor.
Defined.

(** Three letters of POST around a long s in UTF-8 would pass as five
    bytes; cut to four by the probe they do not. *)
Lemma http_check_rejects_bytes_above_ascii_witness :
  http_ok Samples.long_s [x50; x4f; xc5; xbf] = false.
Proof.
  apply (http_check_rejects_bytes_above_ascii Samples.long_s [x50; x4f; xc5; xbf]).
  - reflexivity.
  - vm_compute. lia.
  - intros H. vm_compute in H.
    apply Forall_cons in H as [_ H]. apply Forall_cons in H as [_ H].
    apply Forall_cons in H as [H _]. discriminate H.
Defined.

Lemma four_pending_bytes_decide_witness :
  exists r,
    dispatched (trace (Demo.classify Demo.env (Demo.world "OPTIONS *" EndTimeout)).2)
    = [(HTTP, BufferedConn r Demo.conn)]
    /\ banners (trace (Demo.classify Demo.env (Demo.world "OPTIONS *" EndTimeout)).2)
       = [].
Proof.
  destruct (four_pending_bytes_decide
              Demo.upper Demo.log Demo.h Demo.ctx Demo.conn Demo.md
              Demo.env (Demo.world "OPTIONS *" EndTimeout)
              (Demo.classify Demo.env (Demo.world "OPTIONS *" EndTimeout)).1
              (Demo.classify Demo.env (Demo.world "OPTIONS *" EndTimeout)).2)
    as (r & _ & Hd & Hb & _).
  - vm_compute. repeat constructor.
  - vm_compute. lia.
  - vm_compute. reflexivity.
  - exists r. split; [exact Hd | exact Hb].
Defined.
